(** * darktable undo/redo engine: src/common/undo.c

    A shallow embedding of the undo engine and the properties of its
    record / group / replay / clear operations.

    Modelling conventions.
    - Pointers (gpointer, function pointers, the address of a malloc'ed
      item) are numbers, [NULL] is 0.  The GList of item pointers is a
      list of items, each carrying the address it was allocated at;
      [g_list_remove] searches by that address, as glib does.
    - [dt_undo_type_t] values and the uint32 filter are bit masks ([N]
      with [N.land]); [&] never leaves 32 bits, so nothing wraps.
    - Timestamps are IEEE binary64 values (the kernel's primitive
      floats), compared exactly as the C expression does.
    - Calls that leave the engine (the undo callback, the free_data
      destructor, free(), dt_collection_update_query) are appended to a
      trace.  A callback may call dt_undo_record again while the engine
      is locked; what it asks for is given by [callback_body].
    - malloc() and dt_get_wtime() are answered by the environment: their
      results are arguments of the functions that call them.
    - Destructors do not call back into the engine.
    - group_indent is an integer without bound; the C counter agrees with
      it as long as it stays within its type, which [session_in_range]
      asks of a session where it matters.
    - The mutex is not modelled (one thread); only the [locked] flag the
      LOCK / UNLOCK macros maintain is.  [self] is never NULL. *)

From Stdlib Require Import List Permutation NArith ZArith Bool Lia Floats.
Import ListNotations.

Local Open Scope N_scope.

(** ** Data *)

Definition gpointer := N.
Definition NULL : gpointer := 0.

Definition dt_undo_type_t := N.
Definition dt_undo_data_t := gpointer.

Inductive dt_undo_action_t := DT_ACTION_UNDO | DT_ACTION_REDO.

Record dt_undo_item_t := mk_item {
  addr : gpointer;
  user_data : gpointer;
  type : dt_undo_type_t;
  data : dt_undo_data_t;
  ts : float;
  is_group : bool;
  undo : gpointer;
  free_data : gpointer }.

Record dt_undo_t := mk_undo {
  undo_list : list dt_undo_item_t;
  redo_list : list dt_undo_item_t;
  disable_next : bool;
  locked : bool;
  group : dt_undo_type_t;
  group_indent : Z }.

Inductive event :=
| call_undo (f user_data : gpointer) (type : dt_undo_type_t)
            (data : dt_undo_data_t) (action : dt_undo_action_t)
| call_free_data (f : gpointer) (data : dt_undo_data_t)
| call_free (p : gpointer)
| call_collection_update_query.

Record world := mk_world {
  self : dt_undo_t;
  trace : list event }.

Inductive fault := assertion_failed | null_call.

Inductive result (A : Type) :=
| Ok (a : A)
| Fault (f : fault).

Arguments Ok {A} a.
Arguments Fault {A} f.

Definition bind {A B : Type} (r : result A) (k : A -> result B) : result B :=
  match r with
  | Ok a => k a
  | Fault f => Fault f
  end.

Notation "x <- r ;; k" := (bind r (fun x => k))
  (at level 61, r at next level, right associativity).

(** The arguments of one dt_undo_record call made from inside a callback,
    with the answers malloc and dt_get_wtime would give it. *)
Record record_call := mk_record_call {
  rc_user_data : gpointer;
  rc_type : dt_undo_type_t;
  rc_data : dt_undo_data_t;
  rc_undo : gpointer;
  rc_free_data : gpointer;
  rc_malloc : gpointer;
  rc_now : float }.

(** ** Field updates *)

Definition set_undo_list (l : list dt_undo_item_t) (u : dt_undo_t) : dt_undo_t :=
  mk_undo l (redo_list u) (disable_next u) (locked u) (group u) (group_indent u).

Definition set_redo_list (l : list dt_undo_item_t) (u : dt_undo_t) : dt_undo_t :=
  mk_undo (undo_list u) l (disable_next u) (locked u) (group u) (group_indent u).

Definition set_disable_next (b : bool) (u : dt_undo_t) : dt_undo_t :=
  mk_undo (undo_list u) (redo_list u) b (locked u) (group u) (group_indent u).

Definition set_locked (b : bool) (u : dt_undo_t) : dt_undo_t :=
  mk_undo (undo_list u) (redo_list u) (disable_next u) b (group u) (group_indent u).

Definition set_group (t : dt_undo_type_t) (u : dt_undo_t) : dt_undo_t :=
  mk_undo (undo_list u) (redo_list u) (disable_next u) (locked u) t (group_indent u).

Definition set_group_indent (n : Z) (u : dt_undo_t) : dt_undo_t :=
  mk_undo (undo_list u) (redo_list u) (disable_next u) (locked u) (group u) n.

Definition on_self (f : dt_undo_t -> dt_undo_t) (w : world) : world :=
  mk_world (f (self w)) (trace w).

Definition emit (e : event) (w : world) : world :=
  mk_world (self w) (trace w ++ [e]).

(** A [GList **] argument: the address of one of the two list fields. *)
Inductive list_ref := ref_undo_list | ref_redo_list.

Definition deref (r : list_ref) (w : world) : list dt_undo_item_t :=
  match r with
  | ref_undo_list => undo_list (self w)
  | ref_redo_list => redo_list (self w)
  end.

Definition assign (r : list_ref) (l : list dt_undo_item_t) (w : world) : world :=
  match r with
  | ref_undo_list => on_self (set_undo_list l) w
  | ref_redo_list => on_self (set_redo_list l) w
  end.

(** ** glib lists *)

(** g_list_remove (list, data): unlinks the first node whose data pointer
    is [data]; the list is unchanged when there is none. *)
Fixpoint g_list_remove (l : list dt_undo_item_t) (p : gpointer) : list dt_undo_item_t :=
  match l with
  | [] => []
  | x :: t => if addr x =? p then t else x :: g_list_remove t p
  end.

(** g_list_free_full (list, free_func): free_func on every element, first
    to last. *)
Definition g_list_free_full (l : list dt_undo_item_t)
    (free_func : dt_undo_item_t -> world -> world) (w : world) : world :=
  fold_left (fun w item => free_func item w) l w.

(** ** undo.c *)

Definition MAX_TIME_PERIOD : float := 0.5%float.

(** fabs(item->ts - first_item_ts) < MAX_TIME_PERIOD *)
Definition in_time_period (item_ts first_item_ts : float) : bool :=
  PrimFloat.ltb (PrimFloat.abs (PrimFloat.sub item_ts first_item_ts)) MAX_TIME_PERIOD.

(** item->type & filter *)
Definition matches (item : dt_undo_item_t) (filter : N) : bool :=
  negb (N.land (type item) filter =? 0).

Definition LOCK (w : world) : world := on_self (set_locked true) w.
Definition UNLOCK (w : world) : world := on_self (set_locked false) w.

Definition dt_undo_disable_next (w : world) : world :=
  on_self (set_disable_next true) w.

Definition _free_undo_data (item : dt_undo_item_t) (w : world) : world :=
  let w1 := if free_data item =? NULL then w
            else emit (call_free_data (free_data item) (data item)) w in
  emit (call_free (addr item)) w1.

Definition _undo_record (w : world) (user_data : gpointer) (type : dt_undo_type_t)
    (data : dt_undo_data_t) (is_group : bool) (undo free_data : gpointer)
    (p : gpointer) (now : float) : world :=
  if disable_next (self w) then
    let w1 := if free_data =? NULL then w
              else emit (call_free_data free_data data) w in
    on_self (set_disable_next false) w1
  else if negb (locked (self w)) then
    let w1 := LOCK w in
    let item := mk_item p user_data type data now is_group undo free_data in
    let w2 := on_self (fun u => set_undo_list (item :: undo_list u) u) w1 in
    let w3 := g_list_free_full (redo_list (self w2)) _free_undo_data w2 in
    let w4 := on_self (set_redo_list []) w3 in
    UNLOCK w4
  else w.

Definition dt_undo_record (w : world) (user_data : gpointer) (type : dt_undo_type_t)
    (data : dt_undo_data_t) (undo free_data : gpointer)
    (p : gpointer) (now : float) : world :=
  _undo_record w user_data type data false undo free_data p now.

(** dt_undo_record on the arguments and answers packed in [c]. *)
Definition record_with (w : world) (c : record_call) : world :=
  dt_undo_record w (rc_user_data c) (rc_type c) (rc_data c)
    (rc_undo c) (rc_free_data c) (rc_malloc c) (rc_now c).

(** The entry such a call stores, and the sentinel a group call stores. *)
Definition item_of (c : record_call) : dt_undo_item_t :=
  mk_item (rc_malloc c) (rc_user_data c) (rc_type c) (rc_data c) (rc_now c) false
    (rc_undo c) (rc_free_data c).

Definition sentinel (p : gpointer) (type : dt_undo_type_t) (now : float) : dt_undo_item_t :=
  mk_item p NULL type NULL now true NULL NULL.

Section Engine.

(** DT_UNDO_NONE is declared in common/undo.h. *)
Variable DT_UNDO_NONE : dt_undo_type_t.

(** The dt_undo_record calls a callback makes, given everything that has
    left the engine so far (its own call is the last event). *)
Variable callback_body : list event -> list record_call.

Definition dt_undo_init : world :=
  mk_world (mk_undo [] [] false false DT_UNDO_NONE 0%Z) [].

Definition dt_undo_start_group (w : world) (type : dt_undo_type_t)
    (p : gpointer) (now : float) : world :=
  if group (self w) =? DT_UNDO_NONE then
    let w1 := on_self (set_group type) w in
    let w2 := on_self (set_group_indent 1%Z) w1 in
    _undo_record w2 NULL type NULL true NULL NULL p now
  else
    on_self (fun u => set_group_indent (group_indent u + 1)%Z u) w.

Definition dt_undo_end_group (w : world) (p : gpointer) (now : float) : result world :=
  if (0 <? group_indent (self w))%Z then
    let w1 := on_self (fun u => set_group_indent (group_indent u - 1)%Z u) w in
    if (group_indent (self w1) =? 0)%Z then
      let w2 := _undo_record w1 NULL (group (self w1)) NULL true NULL NULL p now in
      Ok (on_self (set_group DT_UNDO_NONE) w2)
    else Ok w1
  else Fault assertion_failed.

(** item->undo (item->user_data, item->type, item->data, action): the call
    is logged, then the callback runs and may call dt_undo_record. *)
Definition invoke_undo (item : dt_undo_item_t) (action : dt_undo_action_t)
    (w : world) : result world :=
  if undo item =? NULL then Fault null_call
  else
    let w1 := emit (call_undo (undo item) (user_data item) (type item) (data item) action) w in
    Ok (fold_left record_with (callback_body (trace w1)) w1).

(** The three loops of _undo_do_undo_redo.  The cursors [l] and [next]
    walk the nodes of the source list as they were when the scan started:
    a node's successor is read before the node is unlinked, and
    g_list_remove never unlinks a node after the cursor.  The lists
    themselves are read and written through [from] and [to]. *)

(** The inner loop of the sentinel branch:
    while((l = next) && !is_group) { ... } *)
Fixpoint group_loop (from to : list_ref) (action : dt_undo_action_t)
    (next : list dt_undo_item_t) (is_group_flag : bool) (w : world) : result world :=
  match next with
  | [] => Ok w
  | item :: next' =>
      if is_group_flag then Ok w
      else
        let w1 := assign from (g_list_remove (deref from w) (addr item)) w in
        r <- (if is_group item then Ok (true, w1)
              else w2 <- invoke_undo item action w1 ;; Ok (false, w2)) ;;
        let w3 := assign to (item :: deref to (snd r)) (snd r) in
        group_loop from to action next' (fst r) w3
  end.

(** The do ... while loop of the plain branch; [item] is the entry under
    the cursor and [next] what follows it. *)
Fixpoint plain_loop (from to : list_ref) (action : dt_undo_action_t) (filter : N)
    (first_item_ts : float) (item : dt_undo_item_t) (next : list dt_undo_item_t)
    (in_group : bool) (w : world) : result world :=
  let w1 := assign from (g_list_remove (deref from w) (addr item)) w in
  r <- (if is_group item then Ok (negb in_group, w1)
        else w2 <- invoke_undo item action w1 ;; Ok (in_group, w2)) ;;
  let w3 := assign to (item :: deref to (snd r)) (snd r) in
  match next with
  | [] => Ok w3
  | item' :: next' =>
      if matches item' filter && (fst r || in_time_period (ts item') first_item_ts)
      then plain_loop from to action filter first_item_ts item' next' (fst r) w3
      else Ok w3
  end.

(** The outer while(l) loop: find the first matching entry, replay its
    batch, break. *)
Fixpoint scan_loop (from to : list_ref) (action : dt_undo_action_t) (filter : N)
    (l : list dt_undo_item_t) (w : world) : result world :=
  match l with
  | [] => Ok w
  | item :: next =>
      if matches item filter then
        if is_group item then
          let w1 := assign from (g_list_remove (deref from w) (addr item)) w in
          let w2 := assign to (item :: deref to w1) w1 in
          group_loop from to action next false w2
        else
          plain_loop from to action filter (ts item) item next false w
      else scan_loop from to action filter next w
  end.

Definition from_ref (action : dt_undo_action_t) : list_ref :=
  match action with
  | DT_ACTION_UNDO => ref_undo_list
  | DT_ACTION_REDO => ref_redo_list
  end.

Definition to_ref (action : dt_undo_action_t) : list_ref :=
  match action with
  | DT_ACTION_UNDO => ref_redo_list
  | DT_ACTION_REDO => ref_undo_list
  end.

Definition _undo_do_undo_redo (w : world) (filter : N) (action : dt_undo_action_t)
    : result world :=
  let w1 := LOCK w in
  let from := from_ref action in
  let to := to_ref action in
  w2 <- scan_loop from to action filter (deref from w1) w1 ;;
  let w3 := UNLOCK w2 in
  Ok (emit call_collection_update_query w3).

Definition dt_undo_do_redo (w : world) (filter : N) : result world :=
  _undo_do_undo_redo w filter DT_ACTION_REDO.

Definition dt_undo_do_undo (w : world) (filter : N) : result world :=
  _undo_do_undo_redo w filter DT_ACTION_UNDO.

End Engine.

(** _undo_clear_list: [l] walks the nodes of the list as it was on entry
    (each node's successor is read before the node is unlinked). *)
Fixpoint _undo_clear_list_loop (list : list_ref) (filter : N)
    (l : Datatypes.list dt_undo_item_t) (w : world) : world :=
  match l with
  | [] => w
  | item :: next =>
      let w' := if matches item filter then
                  let w1 := assign list (g_list_remove (deref list w) (addr item)) w in
                  _free_undo_data item w1
                else w in
      _undo_clear_list_loop list filter next w'
  end.

Definition _undo_clear_list (list : list_ref) (filter : N) (w : world) : world :=
  _undo_clear_list_loop list filter (deref list w) w.

Definition dt_undo_clear (w : world) (filter : N) : world :=
  let w1 := LOCK w in
  let w2 := _undo_clear_list ref_undo_list filter w1 in
  let w3 := _undo_clear_list ref_redo_list filter w2 in
  let w4 := on_self (set_undo_list []) w3 in
  let w5 := on_self (set_redo_list []) w4 in
  let w6 := on_self (set_disable_next false) w5 in
  UNLOCK w6.

Section Teardown.

(** DT_UNDO_ALL is declared in common/undo.h. *)
Variable DT_UNDO_ALL : N.

(** dt_undo_cleanup; destroying the mutex leaves no mark on the model. *)
Definition dt_undo_cleanup (w : world) : world :=
  dt_undo_clear w DT_UNDO_ALL.

End Teardown.

Section Iterate.

(** The visitor [apply] is client code: a function on the client's own
    state, which does not call back into the engine. *)
Variable A : Type.

Fixpoint _undo_iterate (list : Datatypes.list dt_undo_item_t) (filter : N)
    (user_data : gpointer)
    (apply : gpointer -> dt_undo_type_t -> dt_undo_data_t -> A -> A) (acc : A) : A :=
  match list with
  | [] => acc
  | item :: next =>
      let acc' := if negb (is_group item) && matches item filter
                  then apply user_data (type item) (data item) acc
                  else acc in
      _undo_iterate next filter user_data apply acc'
  end.

Definition dt_undo_iterate_internal (w : world) (filter : N) (user_data : gpointer)
    (apply : gpointer -> dt_undo_type_t -> dt_undo_data_t -> A -> A) (acc : A) : A :=
  let acc1 := _undo_iterate (undo_list (self w)) filter user_data apply acc in
  _undo_iterate (redo_list (self w)) filter user_data apply acc1.

Definition dt_undo_iterate (w : world) (filter : N) (user_data : gpointer)
    (apply : gpointer -> dt_undo_type_t -> dt_undo_data_t -> A -> A) (acc : A)
    : world * A :=
  let w1 := LOCK w in
  let acc' := dt_undo_iterate_internal w1 filter user_data apply acc in
  (UNLOCK w1, acc').

End Iterate.

Arguments _undo_iterate {A} list filter user_data apply acc.
Arguments dt_undo_iterate_internal {A} w filter user_data apply acc.
Arguments dt_undo_iterate {A} w filter user_data apply acc.

(** A list, read newest entry first, in which every sentinel has a
    partner of its own type with only plain entries in between;
    [pending] is the type of a sentinel still waiting for its partner. *)
Fixpoint grouped_from (pending : option dt_undo_type_t) (l : list dt_undo_item_t) : bool :=
  match l with
  | [] => match pending with None => true | Some _ => false end
  | x :: t =>
      if is_group x then
        match pending with
        | None => grouped_from (Some (type x)) t
        | Some k => (type x =? k) && grouped_from None t
        end
      else grouped_from pending t
  end.

Definition well_grouped (l : list dt_undo_item_t) : bool := grouped_from None l.

(** ** Sequences of calls *)

Inductive api_call :=
| api_disable_next
| api_record (c : record_call)
| api_start_group (type : dt_undo_type_t) (p : gpointer) (now : float)
| api_end_group (p : gpointer) (now : float)
| api_do_undo (filter : N)
| api_do_redo (filter : N)
| api_clear (filter : N).

Section Sessions.

Variable DT_UNDO_NONE : dt_undo_type_t.
Variable callback_body : list event -> list record_call.

Definition api_step (w : world) (c : api_call) : result world :=
  match c with
  | api_disable_next => Ok (dt_undo_disable_next w)
  | api_record c => Ok (record_with w c)
  | api_start_group type p now => Ok (dt_undo_start_group DT_UNDO_NONE w type p now)
  | api_end_group p now => dt_undo_end_group DT_UNDO_NONE w p now
  | api_do_undo filter => dt_undo_do_undo callback_body w filter
  | api_do_redo filter => dt_undo_do_redo callback_body w filter
  | api_clear filter => Ok (dt_undo_clear w filter)
  end.

Fixpoint api_run (calls : list api_call) (w : world) : result world :=
  match calls with
  | [] => Ok w
  | c :: calls' => w' <- api_step w c ;; api_run calls' w'
  end.

(** The states a client can bring a fresh engine to. *)
Definition reachable (w : world) : Prop :=
  exists calls, api_run calls (dt_undo_init DT_UNDO_NONE) = Ok w.

(** Calls of the group tracker and plain records only, every group
    opened with a type other than DT_UNDO_NONE. *)
Definition tracker_call (c : api_call) : bool :=
  match c with
  | api_record _ => true
  | api_start_group type _ _ => negb (type =? DT_UNDO_NONE)
  | api_end_group _ _ => true
  | _ => false
  end.

(** What holds of the engine between tracker calls: nothing suppressed or
    locked, no redo history, and an undo list that is grouped once the
    sentinel of the open group, if any, is accounted for. *)
Definition tracker_inv (w : world) : Prop :=
  disable_next (self w) = false /\
  locked (self w) = false /\
  redo_list (self w) = [] /\
  (0 <= group_indent (self w))%Z /\
  (group_indent (self w) = 0%Z <-> group (self w) = DT_UNDO_NONE) /\
  grouped_from (if (group_indent (self w) =? 0)%Z then None else Some (group (self w)))
    (undo_list (self w)) = true.

End Sessions.

(** ** Sessions of a well-behaved client *)

(** The item addresses in use. *)
Definition addresses (w : world) : list gpointer :=
  map addr (undo_list (self w) ++ redo_list (self w)).

(** What malloc may return: an address no stored item lives at. *)
Definition fresh (p : gpointer) (w : world) : bool :=
  negb (existsb (N.eqb p) (addresses w)).

Section Soundness.

Variable DT_UNDO_NONE : dt_undo_type_t.
Variable callback_body : list event -> list record_call.

(** A call a client may make in state [w]: records come with an undo
    callback, and the allocator's answer is an address not in use. *)
Definition call_sound (w : world) (c : api_call) : bool :=
  match c with
  | api_record c => negb (rc_undo c =? NULL) && fresh (rc_malloc c) w
  | api_start_group _ p _ => fresh p w
  | api_end_group p _ => fresh p w
  | _ => true
  end.

Fixpoint session_sound (calls : list api_call) (w : world) : bool :=
  match calls with
  | [] => true
  | c :: calls' =>
      call_sound w c &&
      match api_step DT_UNDO_NONE callback_body w c with
      | Ok w' => session_sound calls' w'
      | Fault _ => true
      end
  end.

(** A call that keeps the nesting counter within [max_indent], the
    largest value its C type holds: the only increment is the one of a
    nested begin_group. *)
Definition call_in_range (max_indent : Z) (w : world) (c : api_call) : bool :=
  match c with
  | api_start_group _ _ _ =>
      (group (self w) =? DT_UNDO_NONE) || (group_indent (self w) <? max_indent)%Z
  | _ => true
  end.

Fixpoint session_in_range (max_indent : Z) (calls : list api_call) (w : world) : bool :=
  match calls with
  | [] => true
  | c :: calls' =>
      call_in_range max_indent w c &&
      match api_step DT_UNDO_NONE callback_body w c with
      | Ok w' => session_in_range max_indent calls' w'
      | Fault _ => true
      end
  end.

End Soundness.


(** ** What the operations are expected to do *)

Definition is_call_undo (e : event) : bool :=
  match e with
  | call_undo _ _ _ _ _ => true
  | _ => false
  end.

(** The undo-callback invocations of a trace, oldest first. *)
Definition undo_calls (t : list event) : list event := filter is_call_undo t.

Definition undo_call_of (action : dt_undo_action_t) (item : dt_undo_item_t) : event :=
  call_undo (undo item) (user_data item) (type item) (data item) action.

Definition plain (item : dt_undo_item_t) : bool := negb (is_group item).

(** The callbacks a batch of moved entries triggers, in the order moved. *)
Definition replayed (action : dt_undo_action_t) (batch : list dt_undo_item_t) : list event :=
  map (undo_call_of action) (filter plain batch).

(** What releasing one entry sends out. *)
Definition free_events (item : dt_undo_item_t) : list event :=
  (if free_data item =? NULL then []
   else [call_free_data (free_data item) (data item)]) ++ [call_free (addr item)].

(** Every plain entry carries a callback. *)
Definition callbacks_valid (l : list dt_undo_item_t) : bool :=
  forallb (fun x => is_group x || negb (undo x =? NULL)) l.

(** The entries that follow a leading sentinel up to and including the
    next sentinel, and what is left behind. *)
Fixpoint group_batch (l : list dt_undo_item_t) : list dt_undo_item_t :=
  match l with
  | [] => []
  | x :: t => if is_group x then [x] else x :: group_batch t
  end.

Fixpoint group_rest (l : list dt_undo_item_t) : list dt_undo_item_t :=
  match l with
  | [] => []
  | x :: t => if is_group x then t else group_rest t
  end.

(** The entries a coalescing run takes after its first entry; [in_group]
    is the flag when the head of [l] is examined. *)
Fixpoint plain_batch (filter : N) (first_item_ts : float) (in_group : bool)
    (l : list dt_undo_item_t) : list dt_undo_item_t :=
  match l with
  | [] => []
  | x :: t =>
      if matches x filter && (in_group || in_time_period (ts x) first_item_ts)
      then x :: plain_batch filter first_item_ts
                  (if is_group x then negb in_group else in_group) t
      else []
  end.

Fixpoint plain_rest (filter : N) (first_item_ts : float) (in_group : bool)
    (l : list dt_undo_item_t) : list dt_undo_item_t :=
  match l with
  | [] => []
  | x :: t =>
      if matches x filter && (in_group || in_time_period (ts x) first_item_ts)
      then plain_rest filter first_item_ts
             (if is_group x then negb in_group else in_group) t
      else l
  end.

(** The first matching entry splits the source list in three: the entries
    skipped before it, the batch that is moved, and what stays behind it. *)
Fixpoint replay_skipped (filter : N) (l : list dt_undo_item_t) : list dt_undo_item_t :=
  match l with
  | [] => []
  | x :: t => if matches x filter then [] else x :: replay_skipped filter t
  end.

Fixpoint replay_batch (filter : N) (l : list dt_undo_item_t) : list dt_undo_item_t :=
  match l with
  | [] => []
  | x :: t =>
      if matches x filter then
        if is_group x then x :: group_batch t
        else x :: plain_batch filter (ts x) false t
      else replay_batch filter t
  end.

Fixpoint replay_rest (filter : N) (l : list dt_undo_item_t) : list dt_undo_item_t :=
  match l with
  | [] => []
  | x :: t =>
      if matches x filter then
        if is_group x then group_rest t
        else plain_rest filter (ts x) false t
      else replay_rest filter t
  end.

(** No moved entry shares its address with a skipped one (true of lists
    whose addresses are pairwise distinct). *)
Definition apart (skipped batch : list dt_undo_item_t) : Prop :=
  forall x, In x batch -> ~ In (addr x) (map addr skipped).

(** The stored items live at pairwise distinct addresses and every plain
    one carries a callback. *)
Definition lists_sound (w : world) : Prop :=
  NoDup (addresses w) /\
  callbacks_valid (undo_list (self w) ++ redo_list (self w)) = true.

(** The entries a traversal with mask [filter] visits. *)
Definition visited (filter : N) (l : list dt_undo_item_t) : list dt_undo_item_t :=
  List.filter (fun x => negb (is_group x) && matches x filter) l.

(** A visitor that writes down the arguments of each of its calls. *)
Record visit := mk_visit {
  v_user_data : gpointer;
  v_type : dt_undo_type_t;
  v_data : dt_undo_data_t }.

Definition collect (user_data : gpointer) (type : dt_undo_type_t) (data : dt_undo_data_t)
    (acc : list visit) : list visit :=
  acc ++ [mk_visit user_data type data].

(** The events a replay may send out before its closing notification. *)
Definition replay_event (e : event) : bool :=
  match e with
  | call_undo _ _ _ _ _ => true
  | call_free_data _ _ => true
  | _ => false
  end.

(** What a replay in progress may change between two of its steps:
    the lock stays held, the group state stays put, and only replay
    events are sent out. *)
Definition replay_frame (w w' : world) : Prop :=
  locked (self w') = true /\
  group (self w') = group (self w) /\
  group_indent (self w') = group_indent (self w) /\
  exists s, trace w' = trace w ++ s /\ forallb replay_event s = true.

(** ** Sample sessions

    Concrete engines on which the statements below are exercised.  The
    callback used asks for a record of its own every time it runs. *)

Definition recording_callback (t : list event) : list record_call :=
  [mk_record_call 7 1 8 9 6 900 0%float].

(** A plain entry at address [p] with an undo callback and a destructor. *)
Definition sample_item (p : gpointer) (type : dt_undo_type_t) (ts : float)
    : dt_undo_item_t :=
  mk_item p (p + 1) type (p + 2) ts false 50 60.

Definition sample_call (p : gpointer) (type : dt_undo_type_t) (now : float)
    : record_call :=
  mk_record_call (p + 1) type (p + 2) 50 60 p now.

Definition idle (undo_list redo_list : list dt_undo_item_t) : world :=
  mk_world (mk_undo undo_list redo_list false false 0 0%Z) [].

(** Kind 2 on top of two kind-1 entries a quarter of a second apart. *)
Definition mixed_kinds : world :=
  idle [sample_item 300 2 3%float; sample_item 200 1 2%float;
        sample_item 100 1 1.75%float] [].

(** A kind-1 group around one kind-2 entry. *)
Definition mixed_group_calls : list api_call :=
  [api_start_group 1 100 1%float; api_record (sample_call 101 2 1.25%float);
   api_end_group 102 1.5%float].

Definition mixed_group : world :=
  idle [sentinel 102 1 1.5%float; sample_item 101 2 1.25%float;
        sentinel 100 1 1%float] [].

(** Three kind-1 entries a quarter of a second apart, newest first. *)
Definition three_quarters : world :=
  idle [sample_item 102 1 10.5%float; sample_item 101 1 10.25%float;
        sample_item 100 1 10%float] [].

(** Two kind-1 entries a second apart. *)
Definition one_second : world :=
  idle [sample_item 101 1 11%float; sample_item 100 1 10%float] [].

Definition with_redo : world :=
  idle [sample_item 100 1 1%float] [sample_item 101 1 2%float; sentinel 102 4 3%float].

Definition single_entry : world := idle [sample_item 100 1 1%float] [].

Definition replaying : world :=
  mk_world (mk_undo [sample_item 100 1 1%float] [] false true 0 0%Z) [].

Definition open_group : world :=
  mk_world (mk_undo [sample_item 101 4 2%float; sentinel 100 4 1%float] [] false false 4 1%Z) [].

(** A group whose opening sentinel was suppressed. *)
Definition suppressed_start_calls : list api_call :=
  [api_disable_next; api_start_group 1 100 1%float;
   api_record (sample_call 101 1 1.25%float); api_end_group 102 1.5%float].

Definition lone_sentinel : world :=
  idle [sentinel 102 1 1.5%float; sample_item 101 1 1.25%float] [].

(** The kind-1 group of [mixed_group] after an undo with mask 1. *)
Definition mixed_group_undone : world :=
  mk_world
    (mk_undo [] [sentinel 100 1 1%float; sample_item 101 2 1.25%float;
                 sentinel 102 1 1.5%float] false false 0 0%Z)
    [undo_call_of DT_ACTION_UNDO (sample_item 101 2 1.25%float);
     call_collection_update_query].

(** A plain entry recorded without an undo callback, under an entry of
    another kind. *)
Definition no_callback : world :=
  idle [sample_item 101 2 2%float; mk_item 100 7 1 8 1%float false NULL 60] [].

(** A recent plain entry on top of an older kind-1 group and a still
    older plain entry. *)
Definition plain_over_group : world :=
  idle [sample_item 105 1 10%float; sentinel 104 1 9.75%float; sample_item 103 1 5%float;
        sentinel 102 1 4%float; sample_item 101 1 3%float] [].

(** The same with a kind-2 entry inside the group. *)
Definition plain_over_mixed_group : world :=
  idle [sample_item 105 1 10%float; sentinel 104 1 9.75%float;
        sample_item 103 1 9.5%float; sample_item 106 2 9.25%float;
        sentinel 102 1 9%float] [].

(** A session that records inside a group, undoes and redoes it, then
    clears. *)
Definition busy_calls : list api_call :=
  [api_start_group 1 100 1%float; api_record (sample_call 101 2 1.25%float);
   api_end_group 102 1.5%float; api_do_undo 1; api_record (sample_call 103 1 2%float);
   api_do_undo 3; api_do_redo 1; api_clear 2].

(** A record inside a group nested two deep, closed once. *)
Definition nested_open_calls : list api_call :=
  [api_start_group 1 100 1%float; api_start_group 1 0 0%float;
   api_record (sample_call 101 1 1.25%float); api_end_group 0 0%float].

Definition nested_open : world :=
  mk_world (mk_undo [sample_item 101 1 1.25%float; sentinel 100 1 1%float] []
                    false false 1 1%Z) [].

(** ** Projections through the field updates *)

Section Proofs.

Variable DT_UNDO_NONE : dt_undo_type_t.
Variable callback_body : list event -> list record_call.

Lemma undo_calls_app (t1 t2 : list event) :
  undo_calls (t1 ++ t2) = undo_calls t1 ++ undo_calls t2.
Proof. unfold undo_calls. apply filter_app. Qed.

Lemma deref_assign_same (r : list_ref) (l : list dt_undo_item_t) (w : world) :
  deref r (assign r l w) = l.
Proof. destruct r; reflexivity. Qed.

Lemma deref_assign_to (action : dt_undo_action_t) (l : list dt_undo_item_t) (w : world) :
  deref (from_ref action) (assign (to_ref action) l w) = deref (from_ref action) w.
Proof. destruct action; reflexivity. Qed.

Lemma deref_assign_from (action : dt_undo_action_t) (l : list dt_undo_item_t) (w : world) :
  deref (to_ref action) (assign (from_ref action) l w) = deref (to_ref action) w.
Proof. destruct action; reflexivity. Qed.

Lemma locked_assign (r : list_ref) (l : list dt_undo_item_t) (w : world) :
  locked (self (assign r l w)) = locked (self w).
Proof. destruct r; reflexivity. Qed.

Lemma trace_assign (r : list_ref) (l : list dt_undo_item_t) (w : world) :
  trace (assign r l w) = trace w.
Proof. destruct r; reflexivity. Qed.

(** ** g_list_remove *)

Lemma g_list_remove_head (x : dt_undo_item_t) (t : list dt_undo_item_t) :
  g_list_remove (x :: t) (addr x) = t.
Proof. simpl. now rewrite N.eqb_refl. Qed.

Lemma g_list_remove_app (pre : list dt_undo_item_t) (x : dt_undo_item_t)
    (rest : list dt_undo_item_t) :
  ~ In (addr x) (map addr pre) ->
  g_list_remove (pre ++ x :: rest) (addr x) = pre ++ rest.
Proof.
  induction pre as [|y pre IH]; intros Hnot.
  - apply g_list_remove_head.
  - simpl in *. destruct (N.eqb_spec (addr y) (addr x)) as [E|_].
    + exfalso. apply Hnot. now left.
    + f_equal. apply IH. intros Hin. apply Hnot. now right.
Qed.

(** ** Releasing entries *)

Lemma _free_undo_data_trace (item : dt_undo_item_t) (w : world) :
  trace (_free_undo_data item w) = trace w ++ free_events item.
Proof.
  unfold _free_undo_data, free_events.
  destruct (free_data item =? NULL); simpl; [reflexivity|].
  now rewrite <- app_assoc.
Qed.

Lemma _free_undo_data_self (item : dt_undo_item_t) (w : world) :
  self (_free_undo_data item w) = self w.
Proof. unfold _free_undo_data. now destruct (free_data item =? NULL). Qed.

Lemma g_list_free_full_self (l : list dt_undo_item_t) (w : world) :
  self (g_list_free_full l _free_undo_data w) = self w.
Proof.
  unfold g_list_free_full. revert w.
  induction l as [|x l IH]; intros w; simpl; [reflexivity|].
  rewrite IH. apply _free_undo_data_self.
Qed.

Lemma g_list_free_full_trace (l : list dt_undo_item_t) (w : world) :
  trace (g_list_free_full l _free_undo_data w) = trace w ++ flat_map free_events l.
Proof.
  unfold g_list_free_full. revert w.
  induction l as [|x l IH]; intros w; simpl.
  - now rewrite app_nil_r.
  - rewrite IH, _free_undo_data_trace. now rewrite <- app_assoc.
Qed.

(** ** _undo_record, case by case *)

Lemma _undo_record_suppressed (w : world) (user_data : gpointer) (type : dt_undo_type_t)
    (data : dt_undo_data_t) (is_group : bool) (undo free_data p : gpointer) (now : float) :
  disable_next (self w) = true ->
  _undo_record w user_data type data is_group undo free_data p now =
  on_self (set_disable_next false)
    (if free_data =? NULL then w else emit (call_free_data free_data data) w).
Proof. intros H. unfold _undo_record. now rewrite H. Qed.

Lemma _undo_record_dropped (w : world) (user_data : gpointer) (type : dt_undo_type_t)
    (data : dt_undo_data_t) (is_group : bool) (undo free_data p : gpointer) (now : float) :
  disable_next (self w) = false ->
  locked (self w) = true ->
  _undo_record w user_data type data is_group undo free_data p now = w.
Proof. intros H1 H2. unfold _undo_record. now rewrite H1, H2. Qed.

Lemma _undo_record_stored (w : world) (user_data : gpointer) (type : dt_undo_type_t)
    (data : dt_undo_data_t) (is_group : bool) (undo free_data p : gpointer) (now : float) :
  disable_next (self w) = false ->
  locked (self w) = false ->
  _undo_record w user_data type data is_group undo free_data p now =
  mk_world
    (mk_undo (mk_item p user_data type data now is_group undo free_data :: undo_list (self w))
             [] false false (group (self w)) (group_indent (self w)))
    (trace w ++ flat_map free_events (redo_list (self w))).
Proof.
  intros H1 H2. unfold _undo_record. rewrite H1, H2. simpl.
  unfold UNLOCK, LOCK, on_self. simpl.
  rewrite g_list_free_full_self, g_list_free_full_trace.
  unfold set_locked, set_redo_list, set_undo_list. simpl.
  now rewrite H1.
Qed.

(** A record made while the engine is locked touches neither list, nor
    the lock, and calls no undo callback. *)
Lemma _undo_record_locked_frame (w : world) (user_data : gpointer) (type : dt_undo_type_t)
    (data : dt_undo_data_t) (is_group : bool) (undo free_data p : gpointer) (now : float) :
  locked (self w) = true ->
  let w' := _undo_record w user_data type data is_group undo free_data p now in
  undo_list (self w') = undo_list (self w) /\
  redo_list (self w') = redo_list (self w) /\
  locked (self w') = true /\
  undo_calls (trace w') = undo_calls (trace w).
Proof.
  intros HL. destruct (disable_next (self w)) eqn:HD.
  - cbv zeta. rewrite _undo_record_suppressed by assumption.
    destruct (free_data =? NULL); simpl; repeat split; try assumption.
    rewrite undo_calls_app. simpl. apply app_nil_r.
  - cbv zeta. rewrite _undo_record_dropped by assumption. now repeat split.
Qed.

(** ** Calling an undo callback under the lock *)

Lemma reentrant_records_frame (calls : list record_call) (w : world) :
  locked (self w) = true ->
  let w' := fold_left record_with calls w in
  undo_list (self w') = undo_list (self w) /\
  redo_list (self w') = redo_list (self w) /\
  locked (self w') = true /\
  undo_calls (trace w') = undo_calls (trace w).
Proof.
  revert w. induction calls as [|c calls IH]; intros w HL; simpl.
  - now repeat split.
  - unfold record_with at 2 4 6 8. unfold dt_undo_record.
    destruct (_undo_record_locked_frame w (rc_user_data c) (rc_type c) (rc_data c) false
                (rc_undo c) (rc_free_data c) (rc_malloc c) (rc_now c) HL)
      as (Hu & Hr & Hl & Ht).
    destruct (IH _ Hl) as (Hu' & Hr' & Hl' & Ht').
    repeat split; congruence.
Qed.

Lemma invoke_undo_ok (item : dt_undo_item_t) (action : dt_undo_action_t) (w : world) :
  undo item <> NULL ->
  locked (self w) = true ->
  exists w',
    invoke_undo callback_body item action w = Ok w' /\
    (forall r, deref r w' = deref r w) /\
    locked (self w') = true /\
    undo_calls (trace w') = undo_calls (trace w) ++ [undo_call_of action item].
Proof.
  intros Hf HL. unfold invoke_undo.
  destruct (N.eqb_spec (undo item) NULL) as [E|_]; [contradiction|].
  eexists. split; [reflexivity|].
  set (w1 := emit _ w).
  destruct (reentrant_records_frame (callback_body (trace w1)) w1 HL)
    as (Hu & Hr & Hl & Ht).
  repeat split; try assumption.
  - intros [|]; simpl; assumption.
  - rewrite Ht. unfold w1. simpl. now rewrite undo_calls_app.
Qed.

Lemma invoke_undo_null (item : dt_undo_item_t) (action : dt_undo_action_t) (w : world) :
  undo item = NULL ->
  invoke_undo callback_body item action w = Fault null_call.
Proof. intros E. unfold invoke_undo. now rewrite E. Qed.

(** ** The replay loops *)

Lemma callbacks_valid_cons (x : dt_undo_item_t) (l : list dt_undo_item_t) :
  callbacks_valid (x :: l) = true ->
  (is_group x = false -> undo x <> NULL) /\ callbacks_valid l = true.
Proof.
  unfold callbacks_valid. simpl. intros H.
  apply andb_prop in H. destruct H as [Hx Hl]. split; [|assumption].
  intros Hg E. rewrite Hg, E in Hx. discriminate.
Qed.

Lemma apart_cons (pre : list dt_undo_item_t) (x : dt_undo_item_t)
    (l : list dt_undo_item_t) :
  apart pre (x :: l) -> ~ In (addr x) (map addr pre) /\ apart pre l.
Proof.
  intros H. split.
  - apply H. now left.
  - intros y Hy. apply H. now right.
Qed.

Lemma replayed_cons_plain (action : dt_undo_action_t) (x : dt_undo_item_t)
    (l : list dt_undo_item_t) :
  is_group x = false ->
  replayed action (x :: l) = undo_call_of action x :: replayed action l.
Proof. intros H. unfold replayed, plain. simpl. now rewrite H. Qed.

Lemma replayed_cons_group (action : dt_undo_action_t) (x : dt_undo_item_t)
    (l : list dt_undo_item_t) :
  is_group x = true ->
  replayed action (x :: l) = replayed action l.
Proof. intros H. unfold replayed, plain. simpl. now rewrite H. Qed.

Lemma group_loop_stop (from to : list_ref) (action : dt_undo_action_t)
    (next : list dt_undo_item_t) (w : world) :
  group_loop callback_body from to action next true w = Ok w.
Proof. now destruct next. Qed.

(** One pass of either loop body: the entry under the cursor leaves the
    source list, its callback runs unless it is a sentinel, and it is
    pushed on the destination list. *)
Lemma move_one (action : dt_undo_action_t) (pre : list dt_undo_item_t)
    (item : dt_undo_item_t) (next : list dt_undo_item_t) (w : world) :
  locked (self w) = true ->
  deref (from_ref action) w = pre ++ item :: next ->
  ~ In (addr item) (map addr pre) ->
  (is_group item = false -> undo item <> NULL) ->
  let w1 := assign (from_ref action)
              (g_list_remove (deref (from_ref action) w) (addr item)) w in
  exists w2,
    (if is_group item then Ok w1 else invoke_undo callback_body item action w1) = Ok w2 /\
    let w3 := assign (to_ref action) (item :: deref (to_ref action) w2) w2 in
    deref (from_ref action) w3 = pre ++ next /\
    deref (to_ref action) w3 = item :: deref (to_ref action) w /\
    locked (self w3) = true /\
    undo_calls (trace w3) = undo_calls (trace w) ++ replayed action [item].
Proof.
  intros HL Hfrom Hnot Hcb w1.
  assert (Hf1 : deref (from_ref action) w1 = pre ++ next).
  { unfold w1. rewrite deref_assign_same, Hfrom. now apply g_list_remove_app. }
  assert (Ht1 : deref (to_ref action) w1 = deref (to_ref action) w).
  { unfold w1. apply deref_assign_from. }
  assert (Hl1 : locked (self w1) = true).
  { unfold w1. now rewrite locked_assign. }
  assert (Hc1 : trace w1 = trace w).
  { unfold w1. apply trace_assign. }
  destruct (is_group item) eqn:Hg.
  - exists w1. split; [reflexivity|]. cbv zeta.
    rewrite deref_assign_to, deref_assign_same, locked_assign, trace_assign.
    rewrite Hf1, Ht1, Hl1, Hc1, replayed_cons_group by assumption.
    repeat split. unfold replayed. simpl. now rewrite app_nil_r.
  - destruct (invoke_undo_ok item action w1 (Hcb eq_refl) Hl1) as (w2 & E & Hd & Hl2 & Hc2).
    exists w2. split; [assumption|]. cbv zeta.
    rewrite deref_assign_to, deref_assign_same, locked_assign, trace_assign.
    rewrite !Hd, Hf1, Ht1, Hl2, Hc2, Hc1, replayed_cons_plain by assumption.
    now repeat split.
Qed.

Lemma group_loop_spec (action : dt_undo_action_t) (next pre : list dt_undo_item_t)
    (w : world) :
  locked (self w) = true ->
  deref (from_ref action) w = pre ++ next ->
  apart pre (group_batch next) ->
  callbacks_valid (group_batch next) = true ->
  exists w',
    group_loop callback_body (from_ref action) (to_ref action) action next false w = Ok w' /\
    deref (from_ref action) w' = pre ++ group_rest next /\
    deref (to_ref action) w' = rev (group_batch next) ++ deref (to_ref action) w /\
    locked (self w') = true /\
    undo_calls (trace w') = undo_calls (trace w) ++ replayed action (group_batch next).
Proof.
  revert w. induction next as [|item next IH]; intros w HL Hfrom Hap Hcb.
  - exists w. unfold replayed. simpl. rewrite app_nil_r in Hfrom.
    rewrite !app_nil_r. now repeat split.
  - simpl in Hap, Hcb |- *.
    destruct (is_group item) eqn:Hg.
    + destruct (apart_cons _ _ _ Hap) as [Hnot _].
      destruct (move_one action pre item next w HL Hfrom Hnot) as (w2 & E & H3).
      { intros; congruence. }
      rewrite Hg in E. injection E as <-.
      simpl. rewrite group_loop_stop. eexists. split; [reflexivity|].
      cbv zeta in H3. destruct H3 as (Hf & Ht & Hl & Hc).
      repeat split; assumption.
    + destruct (apart_cons _ _ _ Hap) as [Hnot Hap'].
      destruct (callbacks_valid_cons _ _ Hcb) as [Hx Hcb'].
      destruct (move_one action pre item next w HL Hfrom Hnot Hx) as (w2 & E & H3).
      rewrite Hg in E. rewrite E. simpl.
      cbv zeta in H3. destruct H3 as (Hf & Ht & Hl & Hc).
      destruct (IH _ Hl Hf Hap' Hcb') as (w' & E' & Hf' & Ht' & Hl' & Hc').
      exists w'. split; [assumption|].
      repeat split; try assumption.
      * rewrite Ht', Ht. now rewrite <- app_assoc.
      * rewrite Hc', Hc, (replayed_cons_plain action item (group_batch next) Hg).
        rewrite (replayed_cons_plain action item [] Hg).
        now rewrite <- app_assoc.
Qed.

Lemma plain_loop_spec (action : dt_undo_action_t) (filter : N) (first_item_ts : float)
    (next : list dt_undo_item_t) (item : dt_undo_item_t) (in_group : bool)
    (pre : list dt_undo_item_t) (w : world) :
  let flag := if is_group item then negb in_group else in_group in
  let batch := item :: plain_batch filter first_item_ts flag next in
  locked (self w) = true ->
  deref (from_ref action) w = pre ++ item :: next ->
  apart pre batch ->
  callbacks_valid batch = true ->
  exists w',
    plain_loop callback_body (from_ref action) (to_ref action) action filter
      first_item_ts item next in_group w = Ok w' /\
    deref (from_ref action) w' = pre ++ plain_rest filter first_item_ts flag next /\
    deref (to_ref action) w' = rev batch ++ deref (to_ref action) w /\
    locked (self w') = true /\
    undo_calls (trace w') = undo_calls (trace w) ++ replayed action batch.
Proof.
  revert item in_group w.
  induction next as [|item' next IH]; intros item in_group w flag batch HL Hfrom Hap Hcb;
    destruct (apart_cons _ _ _ Hap) as [Hnot Hap'];
    destruct (callbacks_valid_cons _ _ Hcb) as [Hx Hcb'];
    destruct (move_one action pre item _ w HL Hfrom Hnot Hx) as (w2 & E & H3);
    cbv zeta in H3; destruct H3 as (Hf & Ht & Hl & Hc).
  - simpl. destruct (is_group item) eqn:Hg.
    + injection E as <-. simpl. eexists. split; [reflexivity|].
      unfold batch. simpl. repeat split; assumption.
    + rewrite E. simpl. eexists. split; [reflexivity|].
      unfold batch. simpl. repeat split; assumption.
  - assert (Hstep : forall w3,
        w3 = assign (to_ref action) (item :: deref (to_ref action) w2) w2 ->
        exists w',
          (if matches item' filter && (flag || in_time_period (ts item') first_item_ts)
           then plain_loop callback_body (from_ref action) (to_ref action) action filter
                  first_item_ts item' next flag w3
           else Ok w3) = Ok w' /\
          deref (from_ref action) w' =
            pre ++ plain_rest filter first_item_ts flag (item' :: next) /\
          deref (to_ref action) w' = rev batch ++ deref (to_ref action) w /\
          locked (self w') = true /\
          undo_calls (trace w') = undo_calls (trace w) ++ replayed action batch).
    { intros w3 ->. unfold batch in *. simpl in Hap', Hcb' |- *.
      destruct (matches item' filter &&
                (flag || in_time_period (ts item') first_item_ts)) eqn:Hgo.
      - destruct (IH item' flag _ Hl Hf Hap' Hcb') as (w' & E' & Hf' & Ht' & Hl' & Hc').
        exists w'. split; [assumption|].
        repeat split; try assumption.
        + rewrite Ht', Ht. simpl. now rewrite <- !app_assoc.
        + rewrite Hc', Hc. rewrite <- app_assoc. f_equal.
          unfold replayed. simpl. destruct (plain item); reflexivity.
      - eexists. split; [reflexivity|]. repeat split; assumption. }
    simpl. destruct (is_group item) eqn:Hg.
    + injection E as <-. simpl. apply Hstep. reflexivity.
    + rewrite E. simpl. apply Hstep. reflexivity.
Qed.

Lemma scan_loop_spec (action : dt_undo_action_t) (filter : N)
    (l pre : list dt_undo_item_t) (w : world) :
  locked (self w) = true ->
  deref (from_ref action) w = pre ++ l ->
  apart (pre ++ replay_skipped filter l) (replay_batch filter l) ->
  callbacks_valid (replay_batch filter l) = true ->
  exists w',
    scan_loop callback_body (from_ref action) (to_ref action) action filter l w = Ok w' /\
    deref (from_ref action) w' = pre ++ replay_skipped filter l ++ replay_rest filter l /\
    deref (to_ref action) w' = rev (replay_batch filter l) ++ deref (to_ref action) w /\
    locked (self w') = true /\
    undo_calls (trace w') = undo_calls (trace w) ++ replayed action (replay_batch filter l).
Proof.
  revert pre w. induction l as [|x t IH]; intros pre w HL Hfrom Hap Hcb.
  - exists w. unfold replayed. simpl. rewrite app_nil_r in Hfrom.
    rewrite !app_nil_r. now repeat split.
  - simpl in Hap, Hcb |- *. destruct (matches x filter) eqn:Hm.
    + rewrite app_nil_r in Hap. simpl. destruct (is_group x) eqn:Hg.
      * destruct (apart_cons _ _ _ Hap) as [Hnot Hap'].
        destruct (callbacks_valid_cons _ _ Hcb) as [Hx Hcb'].
        destruct (move_one action pre x t w HL Hfrom Hnot Hx) as (w2 & E & H3).
        rewrite Hg in E. injection E as <-.
        cbv zeta in H3. destruct H3 as (Hf & Ht & Hl & Hc).
        destruct (group_loop_spec action t pre _ Hl Hf Hap' Hcb')
          as (w' & E' & Hf' & Ht' & Hl' & Hc').
        exists w'. split; [assumption|].
        repeat split; try assumption.
        -- rewrite Ht', Ht. simpl. now rewrite <- app_assoc.
        -- rewrite Hc', Hc, (replayed_cons_group action x (group_batch t) Hg).
           rewrite (replayed_cons_group action x [] Hg). unfold replayed at 1. simpl.
           now rewrite app_nil_r.
      * pose proof (plain_loop_spec action filter (ts x) t x false pre w) as P.
        cbv zeta in P. rewrite Hg in P. apply P; assumption.
    + assert (Hfrom' : deref (from_ref action) w = (pre ++ [x]) ++ t).
      { rewrite Hfrom. now rewrite <- app_assoc. }
      assert (Hap'' : apart ((pre ++ [x]) ++ replay_skipped filter t) (replay_batch filter t)).
      { rewrite <- app_assoc. exact Hap. }
      destruct (IH (pre ++ [x]) w HL Hfrom' Hap'' Hcb) as (w' & E' & Hf' & Ht' & Hl' & Hc').
      exists w'. split; [assumption|].
      repeat split; try assumption.
      rewrite Hf'. now rewrite <- app_assoc.
Qed.

(** The whole of _undo_do_undo_redo: the batch selected by [filter] moves
    from the source list to the destination list, reversed, its plain
    entries' callbacks run in the order moved, and the lock is released. *)
Lemma perform_spec (w : world) (filter : N) (action : dt_undo_action_t) :
  let l := deref (from_ref action) w in
  apart (replay_skipped filter l) (replay_batch filter l) ->
  callbacks_valid (replay_batch filter l) = true ->
  exists w',
    _undo_do_undo_redo callback_body w filter action = Ok w' /\
    deref (from_ref action) w' = replay_skipped filter l ++ replay_rest filter l /\
    deref (to_ref action) w' = rev (replay_batch filter l) ++ deref (to_ref action) w /\
    locked (self w') = false /\
    undo_calls (trace w') = undo_calls (trace w) ++ replayed action (replay_batch filter l).
Proof.
  intros l Hap Hcb. unfold _undo_do_undo_redo.
  assert (HL : locked (self (LOCK w)) = true) by reflexivity.
  assert (Hd : forall r, deref r (LOCK w) = deref r w) by (intros [|]; reflexivity).
  rewrite Hd. fold l.
  destruct (scan_loop_spec action filter l [] (LOCK w) HL) as (w' & E & Hf & Ht & Hl & Hc).
  { rewrite Hd. reflexivity. }
  { exact Hap. }
  { exact Hcb. }
  rewrite E. simpl. eexists. split; [reflexivity|].
  repeat split.
  - destruct action; exact Hf.
  - destruct action; simpl in *; rewrite Ht; reflexivity.
  - simpl. rewrite undo_calls_app. simpl. rewrite app_nil_r. exact Hc.
Qed.

(** ** Properties of the selection *)

Lemma group_split (l : list dt_undo_item_t) : group_batch l ++ group_rest l = l.
Proof.
  induction l as [|x t IH]; simpl; [reflexivity|].
  destruct (is_group x); simpl; [reflexivity|]. now rewrite IH.
Qed.

Lemma plain_split (filter : N) (first_item_ts : float) (l : list dt_undo_item_t)
    (in_group : bool) :
  plain_batch filter first_item_ts in_group l ++ plain_rest filter first_item_ts in_group l = l.
Proof.
  revert in_group. induction l as [|x t IH]; intros in_group; simpl; [reflexivity|].
  destruct (matches x filter && (in_group || in_time_period (ts x) first_item_ts));
    simpl; [|reflexivity].
  now rewrite IH.
Qed.

Lemma replay_split (filter : N) (l : list dt_undo_item_t) :
  replay_skipped filter l ++ replay_batch filter l ++ replay_rest filter l = l.
Proof.
  induction l as [|x t IH]; simpl; [reflexivity|].
  destruct (matches x filter); simpl.
  - destruct (is_group x); simpl; f_equal.
    + apply group_split.
    + apply plain_split.
  - now rewrite IH.
Qed.

Lemma replay_skipped_no_match (filter : N) (l : list dt_undo_item_t) :
  forallb (fun x => negb (matches x filter)) (replay_skipped filter l) = true.
Proof.
  induction l as [|x t IH]; simpl; [reflexivity|].
  destruct (matches x filter) eqn:Hm; simpl; [reflexivity|].
  now rewrite Hm, IH.
Qed.

Lemma plain_batch_matches (filter : N) (first_item_ts : float) (l : list dt_undo_item_t)
    (in_group : bool) :
  forallb (fun x => matches x filter) (plain_batch filter first_item_ts in_group l) = true.
Proof.
  revert in_group. induction l as [|x t IH]; intros in_group; simpl; [reflexivity|].
  destruct (matches x filter) eqn:Hm; simpl; [|reflexivity].
  destruct (in_group || in_time_period (ts x) first_item_ts); simpl; [|reflexivity].
  now rewrite Hm, IH.
Qed.

Lemma replay_none (filter : N) (l : list dt_undo_item_t) :
  forallb (fun x => negb (matches x filter)) l = true ->
  replay_skipped filter l = l /\ replay_batch filter l = [] /\ replay_rest filter l = [].
Proof.
  induction l as [|x t IH]; simpl; intros H; [now repeat split|].
  apply andb_prop in H. destruct H as [Hx Ht].
  apply negb_true_iff in Hx. rewrite Hx.
  destruct (IH Ht) as (-> & -> & ->). now repeat split.
Qed.

Lemma replay_batch_head (filter : N) (l : list dt_undo_item_t) (x : dt_undo_item_t)
    (b : list dt_undo_item_t) :
  replay_batch filter l = x :: b ->
  matches x filter = true /\
  (is_group x = false -> forallb (fun y => matches y filter) (x :: b) = true).
Proof.
  induction l as [|y t IH]; simpl; intros H; [discriminate|].
  destruct (matches y filter) eqn:Hm.
  - destruct (is_group y) eqn:Hg; injection H as <- <-.
    + split; [assumption|]. congruence.
    + split; [assumption|]. intros _. simpl. rewrite Hm. apply plain_batch_matches.
  - now apply IH.
Qed.

Lemma NoDup_apart (filter : N) (l : list dt_undo_item_t) :
  NoDup (map addr l) ->
  apart (replay_skipped filter l) (replay_batch filter l).
Proof.
  intros Hnd x Hx Hin.
  rewrite <- (replay_split filter l) in Hnd.
  rewrite map_app in Hnd.
  apply in_map_iff in Hin. destruct Hin as (y & Hy & Hin).
  apply in_split in Hin. destruct Hin as (l1 & l2 & El).
  rewrite El in Hnd. rewrite map_app in Hnd. simpl in Hnd.
  rewrite <- app_assoc in Hnd. simpl in Hnd.
  apply NoDup_remove_2 in Hnd. apply Hnd.
  rewrite Hy. apply in_or_app. right. apply in_or_app. right.
  rewrite map_app. apply in_or_app. left. now apply in_map.
Qed.

(** ** dt_undo_clear *)

Lemma group_assign (r : list_ref) (l : list dt_undo_item_t) (w : world) :
  group (self (assign r l w)) = group (self w).
Proof. destruct r; reflexivity. Qed.

Lemma group_indent_assign (r : list_ref) (l : list dt_undo_item_t) (w : world) :
  group_indent (self (assign r l w)) = group_indent (self w).
Proof. destruct r; reflexivity. Qed.

Lemma deref_assign_other (r r' : list_ref) (l : list dt_undo_item_t) (w : world) :
  r <> r' -> deref r (assign r' l w) = deref r w.
Proof. destruct r, r'; intros H; try contradiction; reflexivity. Qed.

Lemma deref_free_undo_data (r : list_ref) (item : dt_undo_item_t) (w : world) :
  deref r (_free_undo_data item w) = deref r w.
Proof. unfold deref. now rewrite _free_undo_data_self. Qed.

Lemma _undo_clear_list_loop_frame (list : list_ref) (filter : N)
    (l : Datatypes.list dt_undo_item_t) (w : world) :
  let w' := _undo_clear_list_loop list filter l w in
  group (self w') = group (self w) /\
  group_indent (self w') = group_indent (self w) /\
  (forall r, r <> list -> deref r w' = deref r w) /\
  trace w' = trace w ++ flat_map free_events (List.filter (fun x => matches x filter) l).
Proof.
  revert w. induction l as [|item next IH]; intros w; simpl.
  - rewrite app_nil_r. now repeat split.
  - destruct (matches item filter) eqn:Hm.
    + destruct (IH (_free_undo_data item
                      (assign list (g_list_remove (deref list w) (addr item)) w)))
        as (Hg & Hi & Hd & Ht).
      rewrite _free_undo_data_self in Hg, Hi.
      rewrite _free_undo_data_trace, trace_assign in Ht.
      rewrite group_assign in Hg. rewrite group_indent_assign in Hi.
      repeat split; try assumption.
      * intros r Hr. rewrite (Hd r Hr), deref_free_undo_data.
        now apply deref_assign_other.
      * rewrite Ht. simpl. now rewrite <- app_assoc.
    + apply IH.
Qed.

Lemma dt_undo_clear_self (w : world) (filter : N) :
  self (dt_undo_clear w filter) =
  mk_undo [] [] false false (group (self w)) (group_indent (self w)).
Proof.
  unfold dt_undo_clear, _undo_clear_list.
  set (w1 := LOCK w).
  set (w2 := _undo_clear_list_loop ref_undo_list filter (deref ref_undo_list w1) w1).
  set (w3 := _undo_clear_list_loop ref_redo_list filter (deref ref_redo_list w2) w2).
  destruct (_undo_clear_list_loop_frame ref_undo_list filter (deref ref_undo_list w1) w1)
    as (Hg2 & Hi2 & _ & _).
  destruct (_undo_clear_list_loop_frame ref_redo_list filter (deref ref_redo_list w2) w2)
    as (Hg3 & Hi3 & _ & _).
  fold w2 in Hg2, Hi2. fold w3 in Hg3, Hi3.
  unfold UNLOCK, on_self, set_locked, set_disable_next, set_redo_list, set_undo_list. simpl.
  rewrite Hg3, Hg2, Hi3, Hi2. reflexivity.
Qed.

Lemma dt_undo_clear_trace (w : world) (filter : N) :
  trace (dt_undo_clear w filter) =
  trace w
  ++ flat_map free_events (List.filter (fun x => matches x filter) (undo_list (self w)))
  ++ flat_map free_events (List.filter (fun x => matches x filter) (redo_list (self w))).
Proof.
  unfold dt_undo_clear, _undo_clear_list.
  set (w1 := LOCK w).
  set (w2 := _undo_clear_list_loop ref_undo_list filter (deref ref_undo_list w1) w1).
  set (w3 := _undo_clear_list_loop ref_redo_list filter (deref ref_redo_list w2) w2).
  destruct (_undo_clear_list_loop_frame ref_undo_list filter (deref ref_undo_list w1) w1)
    as (_ & _ & Hd2 & Ht2).
  destruct (_undo_clear_list_loop_frame ref_redo_list filter (deref ref_redo_list w2) w2)
    as (_ & _ & _ & Ht3).
  fold w2 in Hd2, Ht2. fold w3 in Ht3.
  change (trace w3 = trace w ++
            flat_map free_events (List.filter (fun x => matches x filter) (undo_list (self w)))
            ++ flat_map free_events
                 (List.filter (fun x => matches x filter) (redo_list (self w)))).
  rewrite Ht3, Ht2, (Hd2 ref_redo_list) by discriminate.
  now rewrite <- app_assoc.
Qed.

(** C1: for every filter mask and every engine state, dt_undo_clear leaves
    the undo list and the redo list empty, whatever the kinds of their
    entries; on the way it releases exactly the entries that match the
    mask (undo list first, then redo list), each through _free_undo_data,
    and the others are discarded with the lists. *)
Theorem dt_undo_clear_empties_both_stacks (w : world) (filter : N) :
  undo_list (self (dt_undo_clear w filter)) = [] /\
  redo_list (self (dt_undo_clear w filter)) = [] /\
  trace (dt_undo_clear w filter) =
    trace w
    ++ flat_map free_events (List.filter (fun x => matches x filter) (undo_list (self w)))
    ++ flat_map free_events (List.filter (fun x => matches x filter) (redo_list (self w))).
Proof.
  rewrite dt_undo_clear_self, dt_undo_clear_trace. now repeat split.
Qed.

(** ** Recording *)

Lemma free_events_release (x : dt_undo_item_t) (l : list dt_undo_item_t) :
  In x l ->
  free_data x <> NULL ->
  In (call_free_data (free_data x) (data x)) (flat_map free_events l).
Proof.
  intros Hin Hf. apply in_flat_map. exists x. split; [assumption|].
  unfold free_events. destruct (N.eqb_spec (free_data x) NULL); [contradiction|].
  now left.
Qed.

(** C5: a record that stores its entry (suppression flag clear, no replay
    in progress) empties the redo list after handing every entry in it to
    _free_undo_data, which calls the entry's destructor when it has one;
    a redo asked for right after it, with any mask, finds nothing to
    replay: no callback runs and both lists stay as the record left them. *)
Theorem record_invalidates_redo (w : world) (a_user_data : gpointer)
    (a_type : dt_undo_type_t) (a_data : dt_undo_data_t) (a_is_group : bool)
    (a_undo a_free_data p : gpointer) (now : float) (filter : N) :
  disable_next (self w) = false ->
  locked (self w) = false ->
  let w1 := _undo_record w a_user_data a_type a_data a_is_group a_undo a_free_data p now in
  undo_list (self w1) =
    mk_item p a_user_data a_type a_data now a_is_group a_undo a_free_data :: undo_list (self w) /\
  redo_list (self w1) = [] /\
  trace w1 = trace w ++ flat_map free_events (redo_list (self w)) /\
  (forall x, In x (redo_list (self w)) -> free_data x <> NULL ->
             In (call_free_data (free_data x) (data x)) (trace w1)) /\
  exists w2,
    dt_undo_do_redo callback_body w1 filter = Ok w2 /\
    undo_list (self w2) = undo_list (self w1) /\
    redo_list (self w2) = [] /\
    undo_calls (trace w2) = undo_calls (trace w1).
Proof.
  intros HD HL w1. unfold w1.
  rewrite _undo_record_stored by assumption. simpl.
  repeat split.
  - intros x Hin Hf. apply in_or_app. right. now apply free_events_release.
  - unfold dt_undo_do_redo.
    match goal with |- context [_undo_do_undo_redo _ ?w0 _ _] => set (w0' := w0) end.
    destruct (perform_spec w0' filter DT_ACTION_REDO) as (w2 & E & Hf & Ht & _ & Hc).
    { intros x []. }
    { reflexivity. }
    exists w2. split; [exact E|].
    simpl in Hf, Ht, Hc. rewrite app_nil_r in Hc.
    repeat split; assumption.
Qed.

Lemma reentrant_records_dropped (calls : list record_call) (w : world) :
  locked (self w) = true ->
  disable_next (self w) = false ->
  fold_left record_with calls w = w.
Proof.
  intros HL HD. induction calls as [|c calls IH]; simpl; [reflexivity|].
  unfold record_with at 2. unfold dt_undo_record. now rewrite _undo_record_dropped.
Qed.

(** C8: a record made while a replay is in progress ([locked] set), the
    suppression flag being clear, changes nothing at all: the engine state
    and the trace are the same, so no entry was allocated or stored and
    no destructor ran.  In particular, during a replay, whatever records
    an undo callback asks for, invoking it leaves only its own call
    behind. *)
Theorem record_dropped_while_replaying (w : world) (a_user_data : gpointer)
    (a_type : dt_undo_type_t) (a_data : dt_undo_data_t) (a_undo a_free_data p : gpointer)
    (now : float) :
  locked (self w) = true ->
  disable_next (self w) = false ->
  dt_undo_record w a_user_data a_type a_data a_undo a_free_data p now = w /\
  forall item action,
    undo item <> NULL ->
    invoke_undo callback_body item action w = Ok (emit (undo_call_of action item) w).
Proof.
  intros HL HD. split.
  - unfold dt_undo_record. now apply _undo_record_dropped.
  - intros item action Hf. unfold invoke_undo.
    destruct (N.eqb_spec (undo item) NULL) as [E|_]; [contradiction|].
    f_equal. now apply reentrant_records_dropped.
Qed.

(** ** Groups *)

(** C9: dt_undo_end_group with nesting depth zero fails its assertion;
    with a positive depth it decrements the depth, and exactly when the
    depth reaches zero it records one sentinel of the open group's type
    and resets the group to DT_UNDO_NONE; otherwise nothing else changes. *)
Theorem dt_undo_end_group_spec (w : world) (p : gpointer) (now : float) :
  (group_indent (self w) = 0%Z ->
   dt_undo_end_group DT_UNDO_NONE w p now = Fault assertion_failed) /\
  ((0 < group_indent (self w))%Z ->
   dt_undo_end_group DT_UNDO_NONE w p now =
   Ok (if (group_indent (self w) =? 1)%Z
       then on_self (set_group DT_UNDO_NONE)
              (_undo_record (on_self (set_group_indent 0%Z) w)
                 NULL (group (self w)) NULL true NULL NULL p now)
       else on_self (set_group_indent (group_indent (self w) - 1)%Z) w)) /\
  (group_indent (self w) = 1%Z ->
   disable_next (self w) = false ->
   locked (self w) = false ->
   exists w',
     dt_undo_end_group DT_UNDO_NONE w p now = Ok w' /\
     undo_list (self w') =
       mk_item p NULL (group (self w)) NULL now true NULL NULL :: undo_list (self w) /\
     group (self w') = DT_UNDO_NONE /\
     group_indent (self w') = 0%Z).
Proof.
  unfold dt_undo_end_group. repeat split.
  - intros H. rewrite H. reflexivity.
  - intros H. apply Z.ltb_lt in H. rewrite H. simpl.
    destruct (Z.eqb_spec (group_indent (self w) - 1) 0) as [E|E];
      destruct (Z.eqb_spec (group_indent (self w)) 1) as [E'|E']; try lia.
    + unfold on_self. simpl. now rewrite E.
    + reflexivity.
  - intros H HD HL. simpl. rewrite !H. simpl. eexists. split; [reflexivity|].
    rewrite _undo_record_stored by assumption. simpl.
    repeat split. lia.
Qed.

(** C10: dt_undo_clear resets the suppression flag armed by
    dt_undo_disable_next, whatever the mask: the record that follows is
    stored as the only entry of the undo list and sends nothing out (its
    destructor does not run), whereas without the clear it would have
    been suppressed and its payload released. *)
Theorem clear_resets_disable_next (w : world) (filter : N) (a_user_data : gpointer)
    (a_type : dt_undo_type_t) (a_data : dt_undo_data_t) (a_undo a_free_data p : gpointer)
    (now : float) :
  let w1 := dt_undo_disable_next w in
  let w2 := dt_undo_clear w1 filter in
  let w3 := dt_undo_record w2 a_user_data a_type a_data a_undo a_free_data p now in
  disable_next (self w1) = true /\
  disable_next (self w2) = false /\
  undo_list (self w3) = [mk_item p a_user_data a_type a_data now false a_undo a_free_data] /\
  redo_list (self w3) = [] /\
  trace w3 = trace w2 /\
  undo_list (self (dt_undo_record w1 a_user_data a_type a_data a_undo a_free_data p now)) =
    undo_list (self w).
Proof.
  intros w1 w2 w3.
  assert (H2 : self w2 = mk_undo [] [] false false (group (self w1)) (group_indent (self w1))).
  { unfold w2. apply dt_undo_clear_self. }
  unfold w3, dt_undo_record.
  rewrite (_undo_record_stored w2) by (rewrite H2; reflexivity).
  rewrite H2. simpl. rewrite app_nil_r.
  repeat split.
  now destruct (a_free_data =? NULL).
Qed.

(** ** Replays that start at the front of the source list *)

Lemma matches_own_type (x : dt_undo_item_t) : type x <> 0 -> matches x (type x) = true.
Proof.
  intros H. unfold matches. rewrite N.land_diag.
  now destruct (N.eqb_spec (type x) 0).
Qed.

Lemma matches_same_type (x y : dt_undo_item_t) (filter : N) :
  type x = type y -> matches x filter = matches y filter.
Proof. intros H. unfold matches. now rewrite H. Qed.

Lemma callbacks_valid_app (l1 l2 : list dt_undo_item_t) :
  callbacks_valid (l1 ++ l2) = callbacks_valid l1 && callbacks_valid l2.
Proof. apply forallb_app. Qed.

Lemma callbacks_valid_batch (filter : N) (l : list dt_undo_item_t) :
  callbacks_valid l = true -> callbacks_valid (replay_batch filter l) = true.
Proof.
  intros H. rewrite <- (replay_split filter l) in H.
  rewrite !callbacks_valid_app in H.
  apply andb_prop in H. destruct H as [_ H].
  apply andb_prop in H. now destruct H.
Qed.

(** When the first entry of the source list matches, nothing is skipped. *)
Lemma perform_at_head (w : world) (filter : N) (action : dt_undo_action_t)
    (x : dt_undo_item_t) (t : list dt_undo_item_t) :
  deref (from_ref action) w = x :: t ->
  matches x filter = true ->
  let batch := x :: (if is_group x then group_batch t
                     else plain_batch filter (ts x) false t) in
  callbacks_valid batch = true ->
  exists w',
    _undo_do_undo_redo callback_body w filter action = Ok w' /\
    deref (from_ref action) w' =
      (if is_group x then group_rest t else plain_rest filter (ts x) false t) /\
    deref (to_ref action) w' = rev batch ++ deref (to_ref action) w /\
    locked (self w') = false /\
    undo_calls (trace w') = undo_calls (trace w) ++ replayed action batch.
Proof.
  intros Hfrom Hm batch Hcb.
  pose proof (perform_spec w filter action) as P. cbv zeta in P.
  rewrite Hfrom in P. simpl in P. rewrite Hm in P.
  unfold batch in *. destruct (is_group x); apply P; try assumption; intros y _ [].
Qed.

(** C6: with exactly one plain entry of kind K on the undo list and an
    empty redo list, an undo with mask K followed by a redo with mask K
    calls the entry's callback exactly twice, first with DT_ACTION_UNDO,
    then with DT_ACTION_REDO; in between the entry is alone on the redo
    list, and afterwards both lists are as they were at the start. *)
Theorem undo_redo_round_trip (w : world) (e : dt_undo_item_t) (K : dt_undo_type_t) :
  undo_list (self w) = [e] ->
  redo_list (self w) = [] ->
  is_group e = false ->
  type e = K ->
  K <> 0 ->
  undo e <> NULL ->
  exists w1 w2,
    dt_undo_do_undo callback_body w K = Ok w1 /\
    undo_list (self w1) = [] /\
    redo_list (self w1) = [e] /\
    undo_calls (trace w1) = undo_calls (trace w) ++ [undo_call_of DT_ACTION_UNDO e] /\
    dt_undo_do_redo callback_body w1 K = Ok w2 /\
    undo_list (self w2) = undo_list (self w) /\
    redo_list (self w2) = redo_list (self w) /\
    undo_calls (trace w2) =
      undo_calls (trace w)
      ++ [undo_call_of DT_ACTION_UNDO e; undo_call_of DT_ACTION_REDO e].
Proof.
  intros Hu Hr Hg Ht HK Hf.
  assert (Hm : matches e K = true) by (subst K; now apply matches_own_type).
  assert (Hcb : callbacks_valid [e] = true).
  { unfold callbacks_valid. simpl. rewrite Hg. simpl.
    destruct (N.eqb_spec (undo e) NULL); [contradiction|reflexivity]. }
  destruct (perform_at_head w K DT_ACTION_UNDO e [] Hu Hm)
    as (w1 & E1 & Hf1 & Ht1 & _ & Hc1).
  { cbv zeta. now rewrite Hg. }
  rewrite Hg in Hf1, Ht1, Hc1. simpl in Hf1, Ht1, Hc1. rewrite Hr in Ht1.
  rewrite (replayed_cons_plain _ _ _ Hg) in Hc1.
  destruct (perform_at_head w1 K DT_ACTION_REDO e [] Ht1 Hm)
    as (w2 & E2 & Hf2 & Ht2 & _ & Hc2).
  { cbv zeta. now rewrite Hg. }
  rewrite Hg in Hf2, Ht2, Hc2. simpl in Hf2, Ht2, Hc2. rewrite Hf1 in Ht2.
  rewrite (replayed_cons_plain _ _ _ Hg) in Hc2.
  exists w1, w2. unfold dt_undo_do_undo, dt_undo_do_redo.
  repeat split; try assumption.
  - congruence.
  - congruence.
  - rewrite Hc2, Hc1. now rewrite <- app_assoc.
Qed.

(** ** Stored records and group calls *)

Lemma record_with_stored (w : world) (c : record_call) :
  disable_next (self w) = false ->
  locked (self w) = false ->
  record_with w c =
  mk_world
    (mk_undo (item_of c :: undo_list (self w)) [] false false
             (group (self w)) (group_indent (self w)))
    (trace w ++ flat_map free_events (redo_list (self w))).
Proof.
  intros HD HL. unfold record_with, dt_undo_record, item_of.
  now apply _undo_record_stored.
Qed.

Lemma dt_undo_start_group_opens (w : world) (K : dt_undo_type_t) (p : gpointer)
    (now : float) :
  group (self w) = DT_UNDO_NONE ->
  disable_next (self w) = false ->
  locked (self w) = false ->
  dt_undo_start_group DT_UNDO_NONE w K p now =
  mk_world
    (mk_undo (sentinel p K now :: undo_list (self w)) [] false false K 1%Z)
    (trace w ++ flat_map free_events (redo_list (self w))).
Proof.
  intros HG HD HL. unfold dt_undo_start_group.
  rewrite HG, N.eqb_refl.
  now rewrite _undo_record_stored by assumption.
Qed.

Lemma dt_undo_start_group_nested (w : world) (K : dt_undo_type_t) (p : gpointer)
    (now : float) :
  group (self w) <> DT_UNDO_NONE ->
  dt_undo_start_group DT_UNDO_NONE w K p now =
  on_self (set_group_indent (group_indent (self w) + 1)%Z) w.
Proof.
  intros HG. unfold dt_undo_start_group.
  now destruct (N.eqb_spec (group (self w)) DT_UNDO_NONE).
Qed.

Lemma dt_undo_end_group_closes (w : world) (p : gpointer) (now : float) :
  group_indent (self w) = 1%Z ->
  disable_next (self w) = false ->
  locked (self w) = false ->
  dt_undo_end_group DT_UNDO_NONE w p now =
  Ok (mk_world
        (mk_undo (sentinel p (group (self w)) now :: undo_list (self w)) [] false false
                 DT_UNDO_NONE 0%Z)
        (trace w ++ flat_map free_events (redo_list (self w)))).
Proof.
  intros HI HD HL. unfold dt_undo_end_group. simpl. rewrite !HI. simpl.
  rewrite _undo_record_stored by assumption.
  unfold on_self, set_group, sentinel. simpl. now rewrite HI.
Qed.

Lemma dt_undo_end_group_nested (w : world) (p : gpointer) (now : float) :
  (1 < group_indent (self w))%Z ->
  dt_undo_end_group DT_UNDO_NONE w p now =
  Ok (on_self (set_group_indent (group_indent (self w) - 1)%Z) w).
Proof.
  intros HI. unfold dt_undo_end_group. simpl.
  destruct (Z.ltb_spec 0 (group_indent (self w))); [|lia].
  destruct (Z.eqb_spec (group_indent (self w) - 1) 0); [lia|reflexivity].
Qed.

(** C3: after begin_group(K), three records of kind K and end_group(),
    one undo with mask K calls the callbacks of the three entries, each
    once, last recorded first, with DT_ACTION_UNDO, and moves the three
    entries and both sentinels to the redo list; the redo with mask K
    that follows calls them in recording order with DT_ACTION_REDO and
    puts all five back on the undo list. *)
Theorem group_atomicity (w : world) (K : dt_undo_type_t) (c1 c2 c3 : record_call)
    (p0 p4 : gpointer) (t0 t4 : float) :
  group (self w) = DT_UNDO_NONE ->
  disable_next (self w) = false ->
  locked (self w) = false ->
  K <> 0 ->
  rc_type c1 = K -> rc_type c2 = K -> rc_type c3 = K ->
  rc_undo c1 <> NULL -> rc_undo c2 <> NULL -> rc_undo c3 <> NULL ->
  exists w5 w6 w7,
    api_run DT_UNDO_NONE callback_body
      [api_start_group K p0 t0; api_record c1; api_record c2; api_record c3;
       api_end_group p4 t4] w = Ok w5 /\
    undo_list (self w5) =
      sentinel p4 K t4 :: item_of c3 :: item_of c2 :: item_of c1 :: sentinel p0 K t0
      :: undo_list (self w) /\
    redo_list (self w5) = [] /\
    dt_undo_do_undo callback_body w5 K = Ok w6 /\
    undo_list (self w6) = undo_list (self w) /\
    redo_list (self w6) =
      [sentinel p0 K t0; item_of c1; item_of c2; item_of c3; sentinel p4 K t4] /\
    undo_calls (trace w6) =
      undo_calls (trace w5)
      ++ [undo_call_of DT_ACTION_UNDO (item_of c3);
          undo_call_of DT_ACTION_UNDO (item_of c2);
          undo_call_of DT_ACTION_UNDO (item_of c1)] /\
    dt_undo_do_redo callback_body w6 K = Ok w7 /\
    undo_list (self w7) = undo_list (self w5) /\
    redo_list (self w7) = [] /\
    undo_calls (trace w7) =
      undo_calls (trace w6)
      ++ [undo_call_of DT_ACTION_REDO (item_of c1);
          undo_call_of DT_ACTION_REDO (item_of c2);
          undo_call_of DT_ACTION_REDO (item_of c3)].
Proof.
  intros HG HD HL HK T1 T2 T3 F1 F2 F3.
  assert (Hm : forall p t, matches (sentinel p K t) K = true).
  { intros p t. now apply (matches_own_type (sentinel p K t)). }
  cbn [api_run api_step bind].
  rewrite dt_undo_start_group_opens by assumption.
  rewrite !record_with_stored by reflexivity. cbn [self undo_list redo_list group
    group_indent trace disable_next locked].
  rewrite dt_undo_end_group_closes by reflexivity. cbn [self undo_list redo_list group
    group_indent trace disable_next locked bind].
  match goal with |- exists w5 _ _, Ok ?w0 = Ok w5 /\ _ => set (w5 := w0) end.
  destruct (perform_at_head w5 K DT_ACTION_UNDO (sentinel p4 K t4)
              (item_of c3 :: item_of c2 :: item_of c1 :: sentinel p0 K t0
               :: undo_list (self w)) eq_refl (Hm _ _))
    as (w6 & E6 & Hf6 & Ht6 & _ & Hc6).
  { cbv zeta. unfold callbacks_valid. simpl. unfold NULL in *.
    apply N.eqb_neq in F1, F2, F3. now rewrite F1, F2, F3. }
  simpl in Hf6, Ht6, Hc6.
  destruct (perform_at_head w6 K DT_ACTION_REDO (sentinel p0 K t0)
              [item_of c1; item_of c2; item_of c3; sentinel p4 K t4] Ht6 (Hm _ _))
    as (w7 & E7 & Hf7 & Ht7 & _ & Hc7).
  { cbv zeta. unfold callbacks_valid. simpl. unfold NULL in *.
    apply N.eqb_neq in F1, F2, F3. now rewrite F1, F2, F3. }
  simpl in Hf7, Ht7, Hc7. rewrite Hf6 in Ht7.
  exists w5, w6, w7. unfold dt_undo_do_undo, dt_undo_do_redo.
  repeat split; assumption.
Qed.

(** ** Coalescing *)

Lemma callbacks_valid_plain_batch (filter : N) (first_item_ts : float) (in_group : bool)
    (l : list dt_undo_item_t) :
  callbacks_valid l = true ->
  callbacks_valid (plain_batch filter first_item_ts in_group l) = true.
Proof.
  intros H. rewrite <- (plain_split filter first_item_ts l in_group) in H.
  rewrite callbacks_valid_app in H. apply andb_prop in H. now destruct H.
Qed.

(** On binary64 values [y <= x] excludes [x < y] (neither holds of a NaN). *)
Lemma SFleb_not_SFltb (f1 f2 : spec_float) : SFleb f2 f1 = true -> SFltb f1 f2 = false.
Proof.
  unfold SFleb, SFltb.
  destruct f1 as [s1|s1| |s1 m1 e1], f2 as [s2|s2| |s2 m2 e2]; simpl;
    try (destruct s1; try destruct s2; simpl; congruence);
    try (destruct s2; simpl; congruence); try congruence.
  destruct s1, s2; simpl; try congruence;
    rewrite (Z.compare_antisym e1 e2);
    destruct (e1 ?= e2)%Z; simpl; try congruence;
    change (Pos.compare_cont Eq m2 m1) with (Pos.compare m2 m1);
    change (Pos.compare_cont Eq m1 m2) with (Pos.compare m1 m2);
    rewrite (Pos.compare_antisym m1 m2);
    destruct (m1 ?= m2)%positive; simpl; congruence.
Qed.

Lemma out_of_time_period (item_ts first_item_ts : float) :
  PrimFloat.leb MAX_TIME_PERIOD (PrimFloat.abs (PrimFloat.sub item_ts first_item_ts)) = true ->
  in_time_period item_ts first_item_ts = false.
Proof.
  unfold in_time_period. rewrite leb_spec, ltb_spec. apply SFleb_not_SFltb.
Qed.

(** C4: two consecutive plain entries [a], [b] of the same kind at the
    front of the source list.  When fabs(b.ts - a.ts) < 0.5 one replay
    takes both (and goes on with what follows); otherwise, and so
    whenever 0.5 <= fabs(b.ts - a.ts), it takes [a] alone and a second
    replay is needed for [b].  Every later entry of the run is compared
    with the timestamp of [a]: a third entry that is out of [a]'s window
    ends the run, however close it is to [b]. *)
Theorem coalescing_window (w : world) (filter : N) (action : dt_undo_action_t)
    (a b : dt_undo_item_t) (rest : list dt_undo_item_t) :
  deref (from_ref action) w = a :: b :: rest ->
  is_group a = false ->
  is_group b = false ->
  type a = type b ->
  matches a filter = true ->
  callbacks_valid (a :: b :: rest) = true ->
  (in_time_period (ts b) (ts a) = true ->
   exists w',
     _undo_do_undo_redo callback_body w filter action = Ok w' /\
     deref (from_ref action) w' = plain_rest filter (ts a) false rest /\
     deref (to_ref action) w' =
       rev (plain_batch filter (ts a) false rest) ++ b :: a :: deref (to_ref action) w /\
     undo_calls (trace w') =
       undo_calls (trace w)
       ++ undo_call_of action a :: undo_call_of action b
          :: replayed action (plain_batch filter (ts a) false rest)) /\
  (in_time_period (ts b) (ts a) = false ->
   exists w' w'',
     _undo_do_undo_redo callback_body w filter action = Ok w' /\
     deref (from_ref action) w' = b :: rest /\
     deref (to_ref action) w' = a :: deref (to_ref action) w /\
     undo_calls (trace w') = undo_calls (trace w) ++ [undo_call_of action a] /\
     _undo_do_undo_redo callback_body w' filter action = Ok w'' /\
     deref (to_ref action) w'' =
       rev (plain_batch filter (ts b) false rest) ++ b :: a :: deref (to_ref action) w /\
     undo_calls (trace w'') =
       undo_calls (trace w')
       ++ undo_call_of action b :: replayed action (plain_batch filter (ts b) false rest)) /\
  (forall c rest',
     rest = c :: rest' ->
     in_time_period (ts b) (ts a) = true ->
     in_time_period (ts c) (ts a) = false ->
     exists w',
       _undo_do_undo_redo callback_body w filter action = Ok w' /\
       deref (from_ref action) w' = c :: rest' /\
       deref (to_ref action) w' = b :: a :: deref (to_ref action) w /\
       undo_calls (trace w') =
         undo_calls (trace w) ++ [undo_call_of action a; undo_call_of action b]) /\
  (PrimFloat.leb MAX_TIME_PERIOD (PrimFloat.abs (PrimFloat.sub (ts b) (ts a))) = true ->
   in_time_period (ts b) (ts a) = false).
Proof.
  intros Hfrom Ha Hb Hty Hm Hcb.
  assert (Hmb : matches b filter = true).
  { now rewrite <- (matches_same_type a b filter Hty). }
  destruct (callbacks_valid_cons _ _ Hcb) as [Hfa Hcb1].
  destruct (callbacks_valid_cons _ _ Hcb1) as [Hfb Hcb2].
  assert (Hone : forall x, is_group x = false -> (is_group x = false -> undo x <> NULL) ->
                 forall l, callbacks_valid l = true -> callbacks_valid (x :: l) = true).
  { intros x Hx Hf l Hl. unfold callbacks_valid in *. simpl. rewrite Hx, Hl. simpl.
    destruct (N.eqb_spec (undo x) NULL) as [E|_]; [now elim (Hf Hx)|reflexivity]. }
  assert (Within : in_time_period (ts b) (ts a) = true ->
    exists w',
     _undo_do_undo_redo callback_body w filter action = Ok w' /\
     deref (from_ref action) w' = plain_rest filter (ts a) false rest /\
     deref (to_ref action) w' =
       rev (plain_batch filter (ts a) false rest) ++ b :: a :: deref (to_ref action) w /\
     undo_calls (trace w') =
       undo_calls (trace w)
       ++ undo_call_of action a :: undo_call_of action b
          :: replayed action (plain_batch filter (ts a) false rest)).
  { intros Hin.
    destruct (perform_at_head w filter action a (b :: rest) Hfrom Hm)
      as (w' & E & Hf & Ht & _ & Hc).
    { cbv zeta. rewrite Ha. cbn [plain_batch]. rewrite Hmb, Hin, Hb. cbn [andb orb].
      apply Hone; [assumption..|]. apply Hone; [assumption..|].
      now apply callbacks_valid_plain_batch. }
    rewrite Ha in Hf, Ht, Hc. simpl in Hf, Ht, Hc.
    rewrite Hmb, Hin, Hb in Hf, Ht, Hc. simpl in Hf, Ht, Hc.
    exists w'. split; [assumption|]. split; [assumption|]. split.
    - rewrite Ht. now rewrite <- !app_assoc.
    - rewrite Hc. now rewrite !replayed_cons_plain by assumption. }
  split; [exact Within|]. split.
  - intros Hout.
    destruct (perform_at_head w filter action a (b :: rest) Hfrom Hm)
      as (w' & E & Hf & Ht & _ & Hc).
    { cbv zeta. rewrite Ha. cbn [plain_batch]. rewrite Hmb, Hout. cbn [andb orb].
      apply Hone; [assumption..|]. reflexivity. }
    rewrite Ha in Hf, Ht, Hc. simpl in Hf, Ht, Hc.
    rewrite Hmb, Hout in Hf, Ht, Hc. simpl in Hf, Ht, Hc.
    rewrite (replayed_cons_plain _ _ _ Ha) in Hc.
    destruct (perform_at_head w' filter action b rest Hf Hmb)
      as (w'' & E' & Hf' & Ht' & _ & Hc').
    { cbv zeta. rewrite Hb. apply Hone; [assumption..|].
      now apply callbacks_valid_plain_batch. }
    rewrite Hb in Hf', Ht', Hc'. simpl in Ht'.
    rewrite (replayed_cons_plain _ _ _ Hb) in Hc'.
    exists w', w''. repeat split; try assumption.
    rewrite Ht', Ht. now rewrite <- app_assoc.
  - split; [|apply out_of_time_period].
    intros c rest' -> Hin Hout.
    destruct (Within Hin) as (w' & E & Hf & Ht & Hc).
    simpl in Hf, Ht, Hc. rewrite Hout, andb_false_r in Hf, Ht, Hc.
    exists w'. now repeat split.
Qed.

(** ** Selectivity *)

Lemma replay_batch_empty (filter : N) (l : list dt_undo_item_t) :
  replay_batch filter l = [] ->
  forallb (fun x => negb (matches x filter)) l = true.
Proof.
  induction l as [|x t IH]; simpl; intros H; [reflexivity|].
  destruct (matches x filter); simpl.
  - destruct (is_group x); discriminate.
  - now apply IH.
Qed.

(** What follows a leading sentinel in its batch: plain entries, closed
    by the next sentinel, or running to the end of the list when there
    is none. *)
Lemma group_batch_shape (t : list dt_undo_item_t) :
  exists mid,
    forallb plain mid = true /\
    ((exists s, is_group s = true /\ group_batch t = mid ++ [s]) \/
     (group_batch t = mid /\ group_rest t = [])).
Proof.
  induction t as [|x t IH]; simpl.
  - exists []. split; [reflexivity|]. now right.
  - destruct (is_group x) eqn:Hg.
    + exists []. split; [reflexivity|]. left. now exists x.
    + destruct IH as (mid & Hp & [(s & Hs & E)|[E Er]]).
      * exists (x :: mid). split.
        -- simpl. unfold plain at 1. now rewrite Hg, Hp.
        -- left. exists s. split; [assumption|]. now rewrite E.
      * exists (x :: mid). split.
        -- simpl. unfold plain at 1. now rewrite Hg, Hp.
        -- right. now rewrite E, Er.
Qed.

Lemma replay_batch_sentinel (filter : N) (l : list dt_undo_item_t) (x : dt_undo_item_t)
    (b : list dt_undo_item_t) :
  replay_batch filter l = x :: b ->
  is_group x = true ->
  exists mid,
    forallb plain mid = true /\
    ((exists s, is_group s = true /\ b = mid ++ [s]) \/
     (b = mid /\ replay_rest filter l = [])).
Proof.
  induction l as [|y t IH]; simpl; intros H Hx; [discriminate|].
  destruct (matches y filter).
  - destruct (is_group y) eqn:Hg; injection H as <- <-.
    + apply group_batch_shape.
    + congruence.
  - now apply IH.
Qed.

(** C2, as the code has it: a replay splits the source list into the
    entries skipped before the first matching entry, the batch, and the
    rest.  Skipped entries never match, and the batch is empty exactly
    when no entry matches.  The batch moves to the other list, reversed,
    and its plain entries, all of them and no others, are replayed;
    everything else keeps its place.  The head of the batch matches the
    mask.  When the head is a plain entry, every entry of the batch
    matches the mask.  When the head is a sentinel, the batch goes on
    with the plain entries that follow, with no test of their kinds, up
    to and including the next sentinel, or to the end of the list when
    there is no other sentinel. *)
Theorem perform_filter_selectivity (w : world) (filter : N) (action : dt_undo_action_t) :
  NoDup (map addr (deref (from_ref action) w)) ->
  callbacks_valid (deref (from_ref action) w) = true ->
  exists w' skipped batch rest,
    _undo_do_undo_redo callback_body w filter action = Ok w' /\
    deref (from_ref action) w = skipped ++ batch ++ rest /\
    deref (from_ref action) w' = skipped ++ rest /\
    deref (to_ref action) w' = rev batch ++ deref (to_ref action) w /\
    undo_calls (trace w') = undo_calls (trace w) ++ replayed action batch /\
    forallb (fun x => negb (matches x filter)) skipped = true /\
    (batch = [] <->
     forallb (fun x => negb (matches x filter)) (deref (from_ref action) w) = true) /\
    (forall x b, batch = x :: b ->
       matches x filter = true /\
       (is_group x = false -> forallb (fun y => matches y filter) batch = true) /\
       (is_group x = true ->
        exists mid,
          forallb plain mid = true /\
          ((exists s, is_group s = true /\ b = mid ++ [s]) \/
           (b = mid /\ rest = [])))).
Proof.
  intros Hnd Hcb.
  destruct (perform_spec w filter action (NoDup_apart filter _ Hnd)
              (callbacks_valid_batch filter _ Hcb))
    as (w' & E & Hf & Ht & _ & Hc).
  exists w', (replay_skipped filter (deref (from_ref action) w)),
         (replay_batch filter (deref (from_ref action) w)),
         (replay_rest filter (deref (from_ref action) w)).
  split; [assumption|]. split; [symmetry; apply replay_split|].
  split; [assumption|]. split; [assumption|]. split; [assumption|].
  split; [apply replay_skipped_no_match|]. split.
  - split.
    + apply replay_batch_empty.
    + intros Hno. now destruct (replay_none filter _ Hno) as (_ & -> & _).
  - intros x b Hb.
    destruct (replay_batch_head filter _ x b Hb) as [H1 H2].
    split; [assumption|]. split.
    + intros Hg. rewrite Hb. now apply H2.
    + intros Hg. now apply (replay_batch_sentinel filter _ x b Hb Hg).
Qed.

(** A replay keeps the item addresses of the two lists pairwise distinct
    and every plain entry with its callback, so the hypotheses of
    [perform_filter_selectivity] hold again for the next call. *)
Lemma perform_keeps_lists_sound (w : world) (filter : N) (action : dt_undo_action_t) :
  NoDup (map addr (deref (from_ref action) w ++ deref (to_ref action) w)) ->
  callbacks_valid (deref (from_ref action) w ++ deref (to_ref action) w) = true ->
  exists w',
    _undo_do_undo_redo callback_body w filter action = Ok w' /\
    NoDup (map addr (deref (from_ref action) w' ++ deref (to_ref action) w')) /\
    callbacks_valid (deref (from_ref action) w' ++ deref (to_ref action) w') = true.
Proof.
  intros Hnd Hcb.
  assert (Hnd1 : NoDup (map addr (deref (from_ref action) w))).
  { rewrite map_app in Hnd. now apply NoDup_app_remove_r in Hnd. }
  assert (Hcb1 : callbacks_valid (deref (from_ref action) w) = true).
  { rewrite callbacks_valid_app in Hcb. apply andb_prop in Hcb. now destruct Hcb. }
  destruct (perform_spec w filter action (NoDup_apart filter _ Hnd1)
              (callbacks_valid_batch filter _ Hcb1))
    as (w' & E & Hf & Ht & _ & _).
  exists w'. split; [assumption|].
  set (l := deref (from_ref action) w) in *.
  assert (P : Permutation (l ++ deref (to_ref action) w)
                (deref (from_ref action) w' ++ deref (to_ref action) w')).
  { rewrite Hf, Ht. rewrite <- (replay_split filter l) at 1.
    rewrite <- !app_assoc. apply Permutation_app_head.
    rewrite !app_assoc. apply Permutation_app_tail.
    rewrite Permutation_app_comm. apply Permutation_app_head, Permutation_rev. }
  split.
  - apply (Permutation_NoDup (Permutation_map addr P) Hnd).
  - unfold callbacks_valid in *. rewrite forallb_forall in *.
    intros x Hx. apply Hcb. apply (Permutation_in x (Permutation_sym P) Hx).
Qed.

(** So does a record whose item is allocated at an address not in use. *)
Lemma _undo_record_keeps_addresses_distinct (w : world) (a_user_data : gpointer)
    (a_type : dt_undo_type_t) (a_data : dt_undo_data_t) (a_is_group : bool)
    (a_undo a_free_data p : gpointer) (now : float) :
  ~ In p (map addr (undo_list (self w))) ->
  NoDup (map addr (undo_list (self w) ++ redo_list (self w))) ->
  let w' := _undo_record w a_user_data a_type a_data a_is_group a_undo a_free_data p now in
  NoDup (map addr (undo_list (self w') ++ redo_list (self w'))).
Proof.
  intros Hp Hnd. cbv zeta.
  destruct (disable_next (self w)) eqn:HD.
  - rewrite _undo_record_suppressed by assumption.
    now destruct (a_free_data =? NULL).
  - destruct (locked (self w)) eqn:HL.
    + now rewrite _undo_record_dropped by assumption.
    + rewrite _undo_record_stored by assumption. simpl. rewrite app_nil_r.
      constructor; [assumption|].
      rewrite map_app in Hnd. now apply NoDup_app_remove_r in Hnd.
Qed.

(** ** Flattening of nested groups *)

Lemma tracker_inv_init : tracker_inv DT_UNDO_NONE (dt_undo_init DT_UNDO_NONE).
Proof. unfold tracker_inv. simpl. repeat split; lia. Qed.

Lemma tracker_inv_step (w w' : world) (c : api_call) :
  tracker_inv DT_UNDO_NONE w ->
  tracker_call DT_UNDO_NONE c = true ->
  api_step DT_UNDO_NONE callback_body w c = Ok w' ->
  tracker_inv DT_UNDO_NONE w'.
Proof.
  intros (HD & HL & HR & H0 & HG & HW) Hc E.
  destruct c as [|c|K p now|p now| | |]; simpl in Hc, E; try discriminate.
  - injection E as <-. rewrite record_with_stored by assumption.
    unfold tracker_inv. simpl. repeat split; try assumption; try apply HG.
  - injection E as <-. apply negb_true_iff in Hc. apply N.eqb_neq in Hc.
    destruct (N.eq_dec (group (self w)) DT_UNDO_NONE) as [En|En].
    + rewrite dt_undo_start_group_opens by assumption.
      apply HG in En. rewrite En in HW. simpl in HW.
      unfold tracker_inv. simpl. rewrite N.eqb_refl, HW.
      repeat split; try lia; try congruence.
    + rewrite dt_undo_start_group_nested by assumption.
      assert (group_indent (self w) <> 0%Z) by (intros Z0; now apply En, HG).
      unfold tracker_inv. simpl.
      destruct (Z.eqb_spec (group_indent (self w)) 0) as [|_]; [contradiction|].
      destruct (Z.eqb_spec (group_indent (self w) + 1) 0) as [|_]; [lia|].
      repeat split; try assumption; lia.
  - destruct (Z.eq_dec (group_indent (self w)) 0) as [Z0|Z0].
    + unfold dt_undo_end_group in E. rewrite Z0 in E. discriminate.
    + destruct (Z.eq_dec (group_indent (self w)) 1) as [Z1|Z1].
      * rewrite dt_undo_end_group_closes in E by assumption. injection E as <-.
        rewrite Z1 in HW. simpl in HW.
        unfold tracker_inv. simpl. rewrite HW.
        repeat split; try lia.
      * rewrite dt_undo_end_group_nested in E by lia. injection E as <-.
        unfold tracker_inv. simpl.
        destruct (Z.eqb_spec (group_indent (self w)) 0) as [|_]; [contradiction|].
        destruct (Z.eqb_spec (group_indent (self w) - 1) 0) as [|_]; [lia|].
        repeat split; try assumption; lia.
Qed.

Lemma tracker_inv_run (calls : list api_call) (w w' : world) :
  tracker_inv DT_UNDO_NONE w ->
  forallb (tracker_call DT_UNDO_NONE) calls = true ->
  api_run DT_UNDO_NONE callback_body calls w = Ok w' ->
  tracker_inv DT_UNDO_NONE w'.
Proof.
  revert w. induction calls as [|c calls IH]; intros w Hinv Hall E; simpl in *.
  - now injection E as <-.
  - apply andb_prop in Hall. destruct Hall as [Hc Hall].
    destruct (api_step DT_UNDO_NONE callback_body w c) as [w1|f] eqn:E1;
      simpl in E; [|discriminate].
    apply (IH w1); try assumption.
    now apply (tracker_inv_step w w1 c).
Qed.

(** C7, as the code has it: starting with no group open, nothing
    suppressed and no replay in progress, begin_group(K); begin_group(K);
    record(e1); end_group(); end_group() with K other than DT_UNDO_NONE
    pushes one sentinel of kind K, e1, and one more sentinel of kind K,
    the inner pair only moving the depth; and in every state reached from
    a fresh engine by records, begin_group (kind other than DT_UNDO_NONE)
    and end_group alone, the redo list is empty and the undo list is
    made of plain entries and sentinel pairs of equal kind around plain
    entries, plus, while a group is open, its one opening sentinel. *)
Theorem nested_groups_flatten :
  (forall (w : world) (K : dt_undo_type_t) (c : record_call)
          (p0 p1 p2 p3 : gpointer) (t0 t1 t2 t3 : float),
     K <> DT_UNDO_NONE ->
     group (self w) = DT_UNDO_NONE ->
     disable_next (self w) = false ->
     locked (self w) = false ->
     exists w',
       api_run DT_UNDO_NONE callback_body
         [api_start_group K p0 t0; api_start_group K p1 t1; api_record c;
          api_end_group p2 t2; api_end_group p3 t3] w = Ok w' /\
       undo_list (self w') =
         sentinel p3 K t3 :: item_of c :: sentinel p0 K t0 :: undo_list (self w) /\
       group (self w') = DT_UNDO_NONE /\
       group_indent (self w') = 0%Z) /\
  (forall (calls : list api_call) (w : world),
     forallb (tracker_call DT_UNDO_NONE) calls = true ->
     api_run DT_UNDO_NONE callback_body calls (dt_undo_init DT_UNDO_NONE) = Ok w ->
     redo_list (self w) = [] /\
     (group_indent (self w) = 0%Z -> well_grouped (undo_list (self w)) = true) /\
     (group_indent (self w) <> 0%Z ->
      grouped_from (Some (group (self w))) (undo_list (self w)) = true)).
Proof.
  split.
  - intros w K c p0 p1 p2 p3 t0 t1 t2 t3 HK HG HD HL.
    cbn [api_run api_step bind].
    rewrite (dt_undo_start_group_opens w) by assumption.
    rewrite dt_undo_start_group_nested by exact HK.
    cbn [on_self self trace set_group_indent undo_list redo_list disable_next locked
         group group_indent].
    rewrite record_with_stored by reflexivity.
    cbn [self trace undo_list redo_list disable_next locked group group_indent].
    rewrite dt_undo_end_group_nested by (simpl; lia).
    cbn [bind on_self self trace set_group_indent undo_list redo_list disable_next locked
         group group_indent].
    rewrite dt_undo_end_group_closes by reflexivity.
    cbn [bind]. eexists. split; [reflexivity|]. now repeat split.
  - intros calls w Hall E.
    destruct (tracker_inv_run calls _ w tracker_inv_init Hall E)
      as (_ & _ & HR & _ & _ & HW).
    split; [assumption|]. split.
    + intros Z0. rewrite Z0 in HW. exact HW.
    + intros Z0. destruct (Z.eqb_spec (group_indent (self w)) 0); [contradiction|].
      exact HW.
Qed.

(** ** Suppression, clearing and teardown *)

(** X1: the flag armed by dt_undo_disable_next is consumed by the very
    next call of _undo_record, sentinel or not and locked or not: that
    call stores nothing, leaves both lists alone, runs the destructor on
    its payload when it has one, and clears the flag, so that the record
    after it is stored again. *)
Theorem disable_next_is_one_shot (w : world) (a_user_data : gpointer)
    (a_type : dt_undo_type_t) (a_data : dt_undo_data_t) (a_is_group : bool)
    (a_undo a_free_data p : gpointer) (now : float) (c : record_call) :
  undo_list (self (_undo_record (dt_undo_disable_next w) a_user_data a_type a_data
                     a_is_group a_undo a_free_data p now)) = undo_list (self w) /\
  redo_list (self (_undo_record (dt_undo_disable_next w) a_user_data a_type a_data
                     a_is_group a_undo a_free_data p now)) = redo_list (self w) /\
  disable_next (self (_undo_record (dt_undo_disable_next w) a_user_data a_type a_data
                        a_is_group a_undo a_free_data p now)) = false /\
  trace (_undo_record (dt_undo_disable_next w) a_user_data a_type a_data
           a_is_group a_undo a_free_data p now) =
    trace w ++ (if a_free_data =? NULL then [] else [call_free_data a_free_data a_data]) /\
  (locked (self w) = false ->
   undo_list (self (record_with
                      (_undo_record (dt_undo_disable_next w) a_user_data a_type a_data
                         a_is_group a_undo a_free_data p now) c)) =
     item_of c :: undo_list (self w)).
Proof.
  rewrite _undo_record_suppressed by reflexivity.
  destruct (a_free_data =? NULL); simpl.
  - rewrite app_nil_r. repeat split.
    intros HL. now rewrite record_with_stored.
  - repeat split.
    intros HL. now rewrite record_with_stored.
Qed.

Lemma NoDup_map_In_eq (l : list dt_undo_item_t) (x y : dt_undo_item_t) :
  NoDup (map addr l) -> In x l -> In y l -> addr x = addr y -> x = y.
Proof.
  induction l as [|z l IH]; simpl; intros Hnd Hx Hy E; [contradiction|].
  inversion Hnd as [|? ? Hz Hnd']; subst.
  destruct Hx as [->|Hx], Hy as [->|Hy].
  - reflexivity.
  - exfalso. apply Hz. rewrite E. now apply in_map.
  - exfalso. apply Hz. rewrite <- E. now apply in_map.
  - now apply IH.
Qed.

Lemma _undo_clear_list_loop_kept (list : list_ref) (filter : N)
    (l kept : Datatypes.list dt_undo_item_t) (w : world) :
  deref list w = kept ++ l ->
  NoDup (map addr (kept ++ l)) ->
  deref list (_undo_clear_list_loop list filter l w) =
    kept ++ List.filter (fun x => negb (matches x filter)) l.
Proof.
  revert kept w. induction l as [|item next IH]; intros kept w Hd Hnd; simpl.
  - assumption.
  - destruct (matches item filter) eqn:Hm; simpl.
    + apply IH.
      * rewrite deref_free_undo_data, deref_assign_same, Hd.
        apply g_list_remove_app.
        rewrite map_app in Hnd. simpl in Hnd.
        apply NoDup_remove_2 in Hnd. intros Hin. apply Hnd.
        apply in_or_app. now left.
      * rewrite map_app in *. simpl in Hnd. now apply NoDup_remove_1 in Hnd.
    + replace (kept ++ item :: List.filter (fun x => negb (matches x filter)) next)
        with ((kept ++ [item]) ++ List.filter (fun x => negb (matches x filter)) next)
        by now rewrite <- app_assoc.
      apply IH; rewrite <- app_assoc; assumption.
Qed.

(** X2: on a list whose items live at distinct addresses, one pass of
    _undo_clear_list leaves exactly the entries that do not match the
    mask, in their order, releases the matching ones first to last, and
    does not touch the other list. *)
Theorem _undo_clear_list_keeps_the_rest (list : list_ref) (filter : N) (w : world) :
  NoDup (map addr (deref list w)) ->
  deref list (_undo_clear_list list filter w) =
    List.filter (fun x => negb (matches x filter)) (deref list w) /\
  (forall r, r <> list -> deref r (_undo_clear_list list filter w) = deref r w) /\
  trace (_undo_clear_list list filter w) =
    trace w ++ flat_map free_events (List.filter (fun x => matches x filter) (deref list w)).
Proof.
  intros Hnd. unfold _undo_clear_list.
  destruct (_undo_clear_list_loop_frame list filter (deref list w) w) as (_ & _ & Hd & Ht).
  split; [|split; assumption].
  now apply (_undo_clear_list_loop_kept list filter (deref list w) [] w).
Qed.

Lemma free_events_call_free (x : dt_undo_item_t) (p : gpointer) :
  In (call_free p) (free_events x) -> addr x = p.
Proof.
  unfold free_events. destruct (free_data x =? NULL); simpl.
  - intros [E|[]]. now injection E.
  - intros [E|[E|[]]]; [discriminate|now injection E].
Qed.

(** X3: dt_undo_clear never releases an entry that does not match the
    mask, although the entry is gone from both lists afterwards: neither
    free() nor, with it, _free_undo_data is called on it. *)
Theorem dt_undo_clear_leaks_the_rest (w : world) (filter : N) (x : dt_undo_item_t) :
  NoDup (addresses w) ->
  In x (undo_list (self w) ++ redo_list (self w)) ->
  matches x filter = false ->
  exists s,
    trace (dt_undo_clear w filter) = trace w ++ s /\
    ~ In (call_free (addr x)) s /\
    ~ In x (undo_list (self (dt_undo_clear w filter))
            ++ redo_list (self (dt_undo_clear w filter))).
Proof.
  intros Hnd Hx Hm. rewrite dt_undo_clear_trace, dt_undo_clear_self. simpl.
  eexists. split; [reflexivity|]. split; [|intros []].
  rewrite <- flat_map_app, <- filter_app. intros Hin.
  apply in_flat_map in Hin. destruct Hin as (y & Hy & Hin).
  apply filter_In in Hy. destruct Hy as [Hy Hmy].
  apply free_events_call_free in Hin.
  assert (y = x) by now apply (NoDup_map_In_eq _ y x Hnd).
  subst y. congruence.
Qed.

Lemma filter_all (f : dt_undo_item_t -> bool) (l : list dt_undo_item_t) :
  forallb f l = true -> List.filter f l = l.
Proof.
  induction l as [|x l IH]; simpl; intros H; [reflexivity|].
  apply andb_prop in H. destruct H as [Hx Hl]. now rewrite Hx, IH.
Qed.

(** X4: when the kind of every stored entry has a bit in DT_UNDO_ALL,
    dt_undo_cleanup releases every entry of the undo list and then every
    entry of the redo list, each once, and leaves both lists empty. *)
Theorem dt_undo_cleanup_releases_everything (DT_UNDO_ALL : N) (w : world) :
  forallb (fun x => matches x DT_UNDO_ALL) (undo_list (self w) ++ redo_list (self w)) = true ->
  undo_list (self (dt_undo_cleanup DT_UNDO_ALL w)) = [] /\
  redo_list (self (dt_undo_cleanup DT_UNDO_ALL w)) = [] /\
  trace (dt_undo_cleanup DT_UNDO_ALL w) =
    trace w ++ flat_map free_events (undo_list (self w) ++ redo_list (self w)).
Proof.
  intros H. unfold dt_undo_cleanup.
  rewrite dt_undo_clear_trace, dt_undo_clear_self. simpl.
  repeat split.
  rewrite <- flat_map_app, <- filter_app. now rewrite filter_all.
Qed.

(** ** Traversal *)

Lemma _undo_iterate_fold (A : Type) (l : list dt_undo_item_t) (filter : N)
    (user_data : gpointer)
    (apply : gpointer -> dt_undo_type_t -> dt_undo_data_t -> A -> A) (acc : A) :
  _undo_iterate l filter user_data apply acc =
  fold_left (fun acc item => apply user_data (type item) (data item) acc)
    (visited filter l) acc.
Proof.
  revert acc. induction l as [|item next IH]; intros acc; simpl; [reflexivity|].
  rewrite IH. now destruct (negb (is_group item) && matches item filter).
Qed.

Lemma visited_app (filter : N) (l1 l2 : list dt_undo_item_t) :
  visited filter (l1 ++ l2) = visited filter l1 ++ visited filter l2.
Proof. apply filter_app. Qed.

(** X5: dt_undo_iterate calls the visitor on the plain entries whose
    kind matches the mask, those of the undo list first (newest first),
    then those of the redo list, each with its type and payload and the
    caller's user_data; sentinels and the other kinds are passed over,
    and the engine is returned as it was, unlocked. *)
Theorem dt_undo_iterate_visits (A : Type) (w : world) (filter : N) (user_data : gpointer)
    (apply : gpointer -> dt_undo_type_t -> dt_undo_data_t -> A -> A) (acc : A) :
  dt_undo_iterate w filter user_data apply acc =
    (UNLOCK w,
     fold_left (fun acc item => apply user_data (type item) (data item) acc)
       (visited filter (undo_list (self w) ++ redo_list (self w))) acc) /\
  dt_undo_iterate_internal w filter user_data apply acc =
    snd (dt_undo_iterate w filter user_data apply acc) /\
  (forall x, In x (visited filter (undo_list (self w) ++ redo_list (self w))) ->
             is_group x = false /\ matches x filter = true).
Proof.
  split; [|split].
  - unfold dt_undo_iterate, dt_undo_iterate_internal. simpl.
    now rewrite !_undo_iterate_fold, visited_app, fold_left_app.
  - reflexivity.
  - intros x Hx. apply filter_In in Hx. destruct Hx as [_ Hx].
    apply andb_prop in Hx. destruct Hx as [Hg Hm].
    apply negb_true_iff in Hg. now split.
Qed.

Lemma collect_fold (user_data : gpointer) (l : list dt_undo_item_t) (acc : list visit) :
  fold_left (fun acc item => collect user_data (type item) (data item) acc) l acc =
  acc ++ map (fun item => mk_visit user_data (type item) (data item)) l.
Proof.
  revert acc. induction l as [|x l IH]; intros acc; simpl.
  - now rewrite app_nil_r.
  - rewrite IH. unfold collect. now rewrite <- app_assoc.
Qed.

Lemma dt_undo_iterate_internal_collect (w : world) (filter : N) (user_data : gpointer) :
  dt_undo_iterate_internal w filter user_data collect [] =
  map (fun item => mk_visit user_data (type item) (data item))
    (visited filter (undo_list (self w) ++ redo_list (self w))).
Proof.
  unfold dt_undo_iterate_internal.
  rewrite !_undo_iterate_fold, <- fold_left_app, <- visited_app.
  apply collect_fold.
Qed.

Lemma visited_Permutation (filter : N) (l l' : list dt_undo_item_t) :
  Permutation l l' -> Permutation (visited filter l) (visited filter l').
Proof.
  unfold visited. induction 1 as [|x l l' _ IH|x y l|l l' l'' _ IH1 _ IH2]; simpl.
  - constructor.
  - destruct (negb (is_group x) && matches x filter); [now constructor|assumption].
  - destruct (negb (is_group x) && matches x filter),
             (negb (is_group y) && matches y filter);
      try apply Permutation_refl; [apply perm_swap].
  - now transitivity (List.filter (fun x => negb (is_group x) && matches x filter) l').
Qed.

(** A replay only moves entries between the two lists. *)
Lemma perform_permutes (w : world) (filter : N) (action : dt_undo_action_t) :
  NoDup (map addr (deref (from_ref action) w)) ->
  callbacks_valid (deref (from_ref action) w) = true ->
  exists w',
    _undo_do_undo_redo callback_body w filter action = Ok w' /\
    Permutation (undo_list (self w) ++ redo_list (self w))
                (undo_list (self w') ++ redo_list (self w')).
Proof.
  intros Hnd Hcb.
  destruct (perform_spec w filter action (NoDup_apart filter _ Hnd)
              (callbacks_valid_batch filter _ Hcb))
    as (w' & E & Hf & Ht & _ & _).
  exists w'. split; [assumption|].
  set (l := deref (from_ref action) w) in *.
  assert (P : Permutation (l ++ deref (to_ref action) w)
                (deref (from_ref action) w' ++ deref (to_ref action) w')).
  { rewrite Hf, Ht. rewrite <- (replay_split filter l) at 1.
    rewrite <- !app_assoc. apply Permutation_app_head.
    rewrite !app_assoc. apply Permutation_app_tail.
    rewrite Permutation_app_comm. apply Permutation_app_head, Permutation_rev. }
  unfold l in P. destruct action; simpl in P.
  - exact P.
  - rewrite (Permutation_app_comm (undo_list (self w))).
    rewrite (Permutation_app_comm (undo_list (self w'))). exact P.
Qed.

(** X6: a replay does not change what a traversal visits, only the
    order: for every mask, the calls the visitor receives after an undo
    or a redo are a rearrangement of those it would have received
    before. *)
Theorem replay_keeps_what_iterate_visits (w : world) (filter : N)
    (action : dt_undo_action_t) (iterate_filter : N) (user_data : gpointer) :
  NoDup (map addr (deref (from_ref action) w)) ->
  callbacks_valid (deref (from_ref action) w) = true ->
  exists w',
    _undo_do_undo_redo callback_body w filter action = Ok w' /\
    Permutation (dt_undo_iterate_internal w iterate_filter user_data collect [])
                (dt_undo_iterate_internal w' iterate_filter user_data collect []).
Proof.
  intros Hnd Hcb.
  destruct (perform_permutes w filter action Hnd Hcb) as (w' & E & P).
  exists w'. split; [assumption|].
  rewrite !dt_undo_iterate_internal_collect.
  apply Permutation_map. now apply visited_Permutation.
Qed.

(** X7: right after a record that is stored, a traversal meets the new
    entry first (when its kind matches the mask), then the entries the
    undo list held before, and nothing of the former redo list. *)
Theorem iterate_after_record (A : Type) (w : world) (c : record_call) (filter : N)
    (user_data : gpointer)
    (apply : gpointer -> dt_undo_type_t -> dt_undo_data_t -> A -> A) (acc : A) :
  disable_next (self w) = false ->
  locked (self w) = false ->
  dt_undo_iterate_internal (record_with w c) filter user_data apply acc =
  _undo_iterate (undo_list (self w)) filter user_data apply
    (if matches (item_of c) filter then apply user_data (rc_type c) (rc_data c) acc
     else acc).
Proof.
  intros HD HL. rewrite record_with_stored by assumption.
  unfold dt_undo_iterate_internal. simpl.
  now destruct (matches (item_of c) filter).
Qed.

(** ** What a replay sends out *)

Lemma replay_frame_refl (w : world) : locked (self w) = true -> replay_frame w w.
Proof.
  intros HL. repeat split; try assumption.
  exists []. now rewrite app_nil_r.
Qed.

Lemma replay_frame_trans (w1 w2 w3 : world) :
  replay_frame w1 w2 -> replay_frame w2 w3 -> replay_frame w1 w3.
Proof.
  intros (_ & G1 & I1 & s1 & T1 & F1) (L2 & G2 & I2 & s2 & T2 & F2).
  repeat split; try congruence.
  exists (s1 ++ s2). split.
  - now rewrite T2, T1, app_assoc.
  - now rewrite forallb_app, F1, F2.
Qed.

Lemma replay_frame_assign (r : list_ref) (l : list dt_undo_item_t) (w : world) :
  locked (self w) = true -> replay_frame w (assign r l w).
Proof.
  intros HL. unfold replay_frame.
  rewrite locked_assign, group_assign, group_indent_assign, trace_assign.
  repeat split; try assumption.
  exists []. now rewrite app_nil_r.
Qed.

Lemma _undo_record_replay_frame (w : world) (user_data : gpointer) (type : dt_undo_type_t)
    (data : dt_undo_data_t) (is_group : bool) (undo free_data p : gpointer) (now : float) :
  locked (self w) = true ->
  replay_frame w (_undo_record w user_data type data is_group undo free_data p now).
Proof.
  intros HL. destruct (disable_next (self w)) eqn:HD.
  - rewrite _undo_record_suppressed by assumption.
    destruct (free_data =? NULL); simpl; repeat split; try assumption.
    + exists []. now rewrite app_nil_r.
    + now exists [call_free_data free_data data].
  - rewrite _undo_record_dropped by assumption. now apply replay_frame_refl.
Qed.

Lemma reentrant_records_replay_frame (calls : list record_call) (w : world) :
  locked (self w) = true ->
  replay_frame w (fold_left record_with calls w).
Proof.
  revert w. induction calls as [|c calls IH]; intros w HL; simpl.
  - now apply replay_frame_refl.
  - pose proof (_undo_record_replay_frame w (rc_user_data c) (rc_type c) (rc_data c) false
                  (rc_undo c) (rc_free_data c) (rc_malloc c) (rc_now c) HL) as F.
    apply (replay_frame_trans _ _ _ F). apply IH. apply F.
Qed.

Lemma invoke_undo_replay_frame (item : dt_undo_item_t) (action : dt_undo_action_t)
    (w w' : world) :
  locked (self w) = true ->
  invoke_undo callback_body item action w = Ok w' ->
  replay_frame w w'.
Proof.
  intros HL E. unfold invoke_undo in E.
  destruct (undo item =? NULL); [discriminate|]. injection E as <-.
  set (e := call_undo _ _ _ _ _).
  assert (F : replay_frame w (emit e w)).
  { repeat split; try assumption. now exists [e]. }
  apply (replay_frame_trans _ _ _ F).
  apply reentrant_records_replay_frame. exact HL.
Qed.

(** One pass of a loop body, whatever the lists hold. *)
Lemma move_one_replay_frame (from to : list_ref) (action : dt_undo_action_t)
    (item : dt_undo_item_t) (w w2 : world) :
  locked (self w) = true ->
  (if is_group item
   then Ok (assign from (g_list_remove (deref from w) (addr item)) w)
   else invoke_undo callback_body item action
          (assign from (g_list_remove (deref from w) (addr item)) w)) = Ok w2 ->
  replay_frame w (assign to (item :: deref to w2) w2).
Proof.
  intros HL E.
  pose proof (replay_frame_assign from (g_list_remove (deref from w) (addr item)) w HL) as F1.
  assert (F2 : replay_frame w w2).
  { destruct (is_group item).
    - now injection E as <-.
    - apply (replay_frame_trans _ _ _ F1).
      apply (invoke_undo_replay_frame item action _ _ (proj1 F1) E). }
  apply (replay_frame_trans _ _ _ F2). apply replay_frame_assign. apply F2.
Qed.

Lemma group_loop_replay_frame (from to : list_ref) (action : dt_undo_action_t)
    (next : list dt_undo_item_t) (flag : bool) (w w' : world) :
  locked (self w) = true ->
  group_loop callback_body from to action next flag w = Ok w' ->
  replay_frame w w'.
Proof.
  revert flag w. induction next as [|item next IH]; intros flag w HL E; simpl in E.
  - injection E as <-. now apply replay_frame_refl.
  - destruct flag; [injection E as <-; now apply replay_frame_refl|].
    destruct (is_group item) eqn:Hg; simpl in E.
    + pose proof (move_one_replay_frame from to action item w _ HL
                    ltac:(rewrite Hg; reflexivity)) as F.
      apply (replay_frame_trans _ _ _ F). apply (IH _ _ (proj1 F) E).
    + destruct (invoke_undo callback_body item action _) as [w2|f] eqn:E2;
        simpl in E; [|discriminate].
      pose proof (move_one_replay_frame from to action item w w2 HL
                    ltac:(rewrite Hg; exact E2)) as F.
      apply (replay_frame_trans _ _ _ F). apply (IH _ _ (proj1 F) E).
Qed.

Lemma plain_loop_replay_frame (from to : list_ref) (action : dt_undo_action_t)
    (filter : N) (first_item_ts : float) (next : list dt_undo_item_t)
    (item : dt_undo_item_t) (in_group : bool) (w w' : world) :
  locked (self w) = true ->
  plain_loop callback_body from to action filter first_item_ts item next in_group w = Ok w' ->
  replay_frame w w'.
Proof.
  revert item in_group w.
  induction next as [|item' next IH]; intros item in_group w HL E; simpl in E.
  - destruct (is_group item) eqn:Hg; simpl in E.
    + injection E as <-.
      apply (move_one_replay_frame from to action item w _ HL). now rewrite Hg.
    + destruct (invoke_undo callback_body item action _) as [w2|f] eqn:E2;
        simpl in E; [|discriminate].
      injection E as <-.
      apply (move_one_replay_frame from to action item w w2 HL). now rewrite Hg.
  - destruct (is_group item) eqn:Hg; simpl in E.
    + pose proof (move_one_replay_frame from to action item w _ HL
                    ltac:(rewrite Hg; reflexivity)) as F.
      destruct (matches item' filter &&
                (negb in_group || in_time_period (ts item') first_item_ts)).
      * apply (replay_frame_trans _ _ _ F). apply (IH _ _ _ (proj1 F) E).
      * now injection E as <-.
    + destruct (invoke_undo callback_body item action _) as [w2|f] eqn:E2;
        simpl in E; [|discriminate].
      pose proof (move_one_replay_frame from to action item w w2 HL
                    ltac:(rewrite Hg; exact E2)) as F.
      destruct (matches item' filter &&
                (in_group || in_time_period (ts item') first_item_ts)).
      * apply (replay_frame_trans _ _ _ F). apply (IH _ _ _ (proj1 F) E).
      * now injection E as <-.
Qed.

Lemma scan_loop_replay_frame (from to : list_ref) (action : dt_undo_action_t)
    (filter : N) (l : list dt_undo_item_t) (w w' : world) :
  locked (self w) = true ->
  scan_loop callback_body from to action filter l w = Ok w' ->
  replay_frame w w'.
Proof.
  induction l as [|item next IH]; intros HL E; simpl in E.
  - injection E as <-. now apply replay_frame_refl.
  - destruct (matches item filter); [|now apply IH].
    destruct (is_group item) eqn:Hg.
    + pose proof (move_one_replay_frame from to action item w _ HL
                    ltac:(rewrite Hg; reflexivity)) as F.
      apply (replay_frame_trans _ _ _ F).
      apply (group_loop_replay_frame from to action next false _ _ (proj1 F) E).
    + apply (plain_loop_replay_frame from to action filter (ts item) next item false
               w w' HL E).
Qed.

(** X8: a replay that returns has sent out nothing but undo-callback
    calls and the payload destructors of records suppressed meanwhile,
    followed by exactly one dt_collection_update_query as its last event;
    in particular it never frees an item.  It returns unlocked and with
    the group state it found. *)
Theorem replay_events (w w' : world) (filter : N) (action : dt_undo_action_t) :
  _undo_do_undo_redo callback_body w filter action = Ok w' ->
  (exists s,
     trace w' = trace w ++ s ++ [call_collection_update_query] /\
     forallb replay_event s = true) /\
  locked (self w') = false /\
  group (self w') = group (self w) /\
  group_indent (self w') = group_indent (self w).
Proof.
  unfold _undo_do_undo_redo. intros E.
  destruct (scan_loop callback_body _ _ action filter _ _) as [w2|f] eqn:E2;
    simpl in E; [|discriminate].
  injection E as <-.
  destruct (scan_loop_replay_frame _ _ _ _ _ (LOCK w) w2 eq_refl E2)
    as (_ & G & I & s & T & F).
  simpl. repeat split; try assumption.
  exists s. split; [|assumption]. rewrite T. simpl. now rewrite <- app_assoc.
Qed.

(** ** Edge cases of a replay *)

Lemma scan_loop_skips (from to : list_ref) (action : dt_undo_action_t) (filter : N)
    (pre l : list dt_undo_item_t) (w : world) :
  forallb (fun x => negb (matches x filter)) pre = true ->
  scan_loop callback_body from to action filter (pre ++ l) w =
  scan_loop callback_body from to action filter l w.
Proof.
  induction pre as [|x pre IH]; simpl; intros H; [reflexivity|].
  apply andb_prop in H. destruct H as [Hx Hp].
  apply negb_true_iff in Hx. rewrite Hx. now apply IH.
Qed.

(** X9: when no entry of the source list matches the mask (so also on
    an empty list) a replay changes nothing in the engine and calls no
    callback, but still sends its dt_collection_update_query. *)
Theorem perform_without_match (w : world) (filter : N) (action : dt_undo_action_t) :
  forallb (fun x => negb (matches x filter)) (deref (from_ref action) w) = true ->
  _undo_do_undo_redo callback_body w filter action =
  Ok (emit call_collection_update_query (UNLOCK w)).
Proof.
  intros H. unfold _undo_do_undo_redo.
  assert (Hd : deref (from_ref action) (LOCK w) = deref (from_ref action) w)
    by (destruct action; reflexivity).
  rewrite Hd, <- (app_nil_r (deref (from_ref action) w)).
  rewrite scan_loop_skips by assumption. reflexivity.
Qed.

(** X10: item->undo is called without a test.  When the first entry that
    matches the mask is a plain entry recorded with a NULL callback, the
    replay calls through the NULL pointer at once. *)
Theorem perform_null_callback (w : world) (filter : N) (action : dt_undo_action_t)
    (pre : list dt_undo_item_t) (x : dt_undo_item_t) (t : list dt_undo_item_t) :
  deref (from_ref action) w = pre ++ x :: t ->
  forallb (fun y => negb (matches y filter)) pre = true ->
  matches x filter = true ->
  is_group x = false ->
  undo x = NULL ->
  _undo_do_undo_redo callback_body w filter action = Fault null_call.
Proof.
  intros Hd Hpre Hm Hg Hf. unfold _undo_do_undo_redo.
  assert (Hd' : deref (from_ref action) (LOCK w) = pre ++ x :: t)
    by (destruct action; exact Hd).
  rewrite Hd', scan_loop_skips by assumption.
  simpl. rewrite Hm, Hg.
  destruct t; simpl; rewrite Hg, invoke_undo_null by assumption; reflexivity.
Qed.

(** ** Groups under replay *)

Lemma forallb_plain_rev (l : list dt_undo_item_t) :
  forallb plain l = true -> forallb plain (rev l) = true.
Proof.
  rewrite !forallb_forall. intros H x Hx. apply H. now apply in_rev.
Qed.

Lemma callbacks_valid_rev (l : list dt_undo_item_t) :
  callbacks_valid l = true -> callbacks_valid (rev l) = true.
Proof.
  unfold callbacks_valid. rewrite !forallb_forall. intros H x Hx. apply H. now apply in_rev.
Qed.

Lemma replayed_plain (action : dt_undo_action_t) (l : list dt_undo_item_t) :
  forallb plain l = true -> replayed action l = map (undo_call_of action) l.
Proof. intros H. unfold replayed. now rewrite filter_all. Qed.

Lemma replayed_app (action : dt_undo_action_t) (l1 l2 : list dt_undo_item_t) :
  replayed action (l1 ++ l2) = replayed action l1 ++ replayed action l2.
Proof. unfold replayed. now rewrite filter_app, map_app. Qed.

Lemma group_batch_plain (l : list dt_undo_item_t) :
  forallb plain l = true -> group_batch l = l /\ group_rest l = [].
Proof.
  induction l as [|x l IH]; simpl; intros H; [now split|].
  apply andb_prop in H. destruct H as [Hx Hl].
  unfold plain in Hx. apply negb_true_iff in Hx. rewrite Hx.
  destruct (IH Hl) as [-> ->]. now split.
Qed.

Lemma group_batch_closed (mid : list dt_undo_item_t) (s : dt_undo_item_t)
    (rest : list dt_undo_item_t) :
  forallb plain mid = true ->
  is_group s = true ->
  group_batch (mid ++ s :: rest) = mid ++ [s] /\ group_rest (mid ++ s :: rest) = rest.
Proof.
  intros Hmid Hs. induction mid as [|x mid IH]; simpl.
  - now rewrite Hs.
  - simpl in Hmid. apply andb_prop in Hmid. destruct Hmid as [Hx Hmid].
    unfold plain in Hx. apply negb_true_iff in Hx. rewrite Hx.
    destruct (IH Hmid) as [-> ->]. now split.
Qed.

(** X15: a matching sentinel that has no partner below it takes the whole
    remainder of the source list with it: every entry under it is
    replayed and moved, whatever its kind and timestamp, and the source
    list ends empty. *)
Theorem unpaired_sentinel_takes_all (w : world) (filter : N) (action : dt_undo_action_t)
    (x : dt_undo_item_t) (t : list dt_undo_item_t) :
  deref (from_ref action) w = x :: t ->
  is_group x = true ->
  matches x filter = true ->
  forallb plain t = true ->
  callbacks_valid t = true ->
  exists w',
    _undo_do_undo_redo callback_body w filter action = Ok w' /\
    deref (from_ref action) w' = [] /\
    deref (to_ref action) w' = rev t ++ x :: deref (to_ref action) w /\
    undo_calls (trace w') = undo_calls (trace w) ++ map (undo_call_of action) t.
Proof.
  intros Hd Hg Hm Hp Hcb.
  destruct (group_batch_plain t Hp) as [Hb Hr].
  destruct (perform_at_head w filter action x t Hd Hm) as (w' & E & Hf & Ht & _ & Hc).
  { cbv zeta. rewrite Hg, Hb. unfold callbacks_valid in *. simpl. now rewrite Hg, Hcb. }
  rewrite Hg in Hf, Ht, Hc. rewrite Hb in Ht, Hc. rewrite Hr in Hf.
  exists w'. repeat split; try assumption.
  - rewrite Ht. simpl. now rewrite <- app_assoc.
  - rewrite Hc, (replayed_cons_group _ _ _ Hg). now rewrite replayed_plain.
Qed.

(** X18: a group at the front of the undo list, closed by two matching
    sentinels around plain entries of any kinds and timestamps, makes a
    round trip: an undo moves it whole to the redo list, calling the
    callbacks newest first; the redo that follows calls them oldest
    first and restores both lists exactly. *)
Theorem group_round_trip (w : world) (filter : N) (e s : dt_undo_item_t)
    (mid rest : list dt_undo_item_t) :
  undo_list (self w) = e :: mid ++ s :: rest ->
  is_group e = true ->
  is_group s = true ->
  matches e filter = true ->
  matches s filter = true ->
  forallb plain mid = true ->
  callbacks_valid mid = true ->
  exists w1 w2,
    dt_undo_do_undo callback_body w filter = Ok w1 /\
    undo_list (self w1) = rest /\
    redo_list (self w1) = s :: rev mid ++ e :: redo_list (self w) /\
    undo_calls (trace w1) =
      undo_calls (trace w) ++ map (undo_call_of DT_ACTION_UNDO) mid /\
    dt_undo_do_redo callback_body w1 filter = Ok w2 /\
    undo_list (self w2) = undo_list (self w) /\
    redo_list (self w2) = redo_list (self w) /\
    undo_calls (trace w2) =
      undo_calls (trace w1) ++ map (undo_call_of DT_ACTION_REDO) (rev mid).
Proof.
  intros Hu He Hs Hme Hms Hp Hcb.
  assert (Hsent : forall x l, is_group x = true -> callbacks_valid l = true ->
                              callbacks_valid (x :: l) = true).
  { intros x l Hx Hl. unfold callbacks_valid in *. simpl. now rewrite Hx, Hl. }
  assert (Hsnoc : forall x l, is_group x = true -> callbacks_valid l = true ->
                              callbacks_valid (l ++ [x]) = true).
  { intros x l Hx Hl. rewrite callbacks_valid_app, Hl. now apply Hsent. }
  destruct (group_batch_closed mid s rest Hp Hs) as [Hb Hr].
  destruct (perform_at_head w filter DT_ACTION_UNDO e (mid ++ s :: rest) Hu Hme)
    as (w1 & E1 & Hf1 & Ht1 & _ & Hc1).
  { cbv zeta. rewrite He, Hb. apply Hsent; [assumption|]. now apply Hsnoc. }
  rewrite He in Hf1, Ht1, Hc1. rewrite Hb in Ht1, Hc1. rewrite Hr in Hf1.
  simpl in Hf1, Ht1.
  assert (Hredo : redo_list (self w1) = s :: rev mid ++ e :: redo_list (self w)).
  { rewrite Ht1, rev_app_distr. simpl. now rewrite <- app_assoc. }
  assert (Hcalls1 : undo_calls (trace w1) =
                    undo_calls (trace w) ++ map (undo_call_of DT_ACTION_UNDO) mid).
  { rewrite Hc1, (replayed_cons_group _ _ _ He), replayed_app.
    rewrite (replayed_cons_group _ _ _ Hs), replayed_plain by assumption.
    unfold replayed at 1. simpl. now rewrite app_nil_r. }
  destruct (group_batch_closed (rev mid) e (redo_list (self w))
              (forallb_plain_rev _ Hp) He) as [Hb' Hr'].
  destruct (perform_at_head w1 filter DT_ACTION_REDO s
              (rev mid ++ e :: redo_list (self w)) Hredo Hms)
    as (w2 & E2 & Hf2 & Ht2 & _ & Hc2).
  { cbv zeta. rewrite Hs, Hb'. apply Hsent; [assumption|].
    apply Hsnoc; [assumption|]. now apply callbacks_valid_rev. }
  rewrite Hs in Hf2, Ht2, Hc2. rewrite Hb' in Ht2, Hc2. rewrite Hr' in Hf2.
  simpl in Hf2, Ht2.
  exists w1, w2. unfold dt_undo_do_undo, dt_undo_do_redo.
  repeat split; try assumption.
  - rewrite Ht2, Hf1, Hu, rev_app_distr, rev_involutive. simpl.
    now rewrite <- app_assoc.
  - rewrite Hc2, (replayed_cons_group _ _ _ Hs), replayed_app.
    rewrite (replayed_cons_group _ _ _ He), replayed_plain
      by now apply forallb_plain_rev.
    unfold replayed at 1. simpl. now rewrite app_nil_r.
Qed.

(** ** A coalescing run that meets a group *)

Lemma plain_batch_inside (filter : N) (first_item_ts : float)
    (mid tail : list dt_undo_item_t) :
  forallb (fun x => plain x && matches x filter) mid = true ->
  plain_batch filter first_item_ts true (mid ++ tail) =
    mid ++ plain_batch filter first_item_ts true tail /\
  plain_rest filter first_item_ts true (mid ++ tail) =
    plain_rest filter first_item_ts true tail.
Proof.
  induction mid as [|x mid IH]; simpl; intros H; [now split|].
  apply andb_prop in H. destruct H as [Hx Hmid].
  apply andb_prop in Hx. destruct Hx as [Hp Hm].
  unfold plain in Hp. apply negb_true_iff in Hp. rewrite Hm, Hp. simpl.
  destruct (IH Hmid) as [-> ->]. now split.
Qed.

(** X16: a coalescing run that reaches a matching sentinel inside its
    time window goes through the whole group behind it: the entries of
    the group are taken as long as their kinds match, whatever their
    timestamps, up to and including the closing sentinel, and past it
    the run goes on by the time window of its first entry. *)
Theorem run_takes_whole_group (w : world) (filter : N) (action : dt_undo_action_t)
    (a s e : dt_undo_item_t) (mid rest : list dt_undo_item_t) :
  deref (from_ref action) w = a :: s :: mid ++ e :: rest ->
  is_group a = false ->
  matches a filter = true ->
  is_group s = true ->
  matches s filter = true ->
  in_time_period (ts s) (ts a) = true ->
  forallb (fun x => plain x && matches x filter) mid = true ->
  is_group e = true ->
  matches e filter = true ->
  callbacks_valid (deref (from_ref action) w) = true ->
  exists w',
    _undo_do_undo_redo callback_body w filter action = Ok w' /\
    deref (from_ref action) w' = plain_rest filter (ts a) false rest /\
    deref (to_ref action) w' =
      rev (plain_batch filter (ts a) false rest) ++ e :: rev mid ++ s :: a
      :: deref (to_ref action) w /\
    undo_calls (trace w') =
      undo_calls (trace w)
      ++ undo_call_of action a :: replayed action mid
      ++ replayed action (plain_batch filter (ts a) false rest).
Proof.
  intros Hd Ha Hma Hs Hms Hin Hmid He Hme Hcb.
  destruct (plain_batch_inside filter (ts a) mid (e :: rest) Hmid) as [Hb Hr].
  assert (Hbatch : plain_batch filter (ts a) false (s :: mid ++ e :: rest) =
                   s :: mid ++ e :: plain_batch filter (ts a) false rest).
  { simpl. rewrite Hms, Hin, Hs. simpl. rewrite Hb. simpl. now rewrite Hme, He. }
  assert (Hrest : plain_rest filter (ts a) false (s :: mid ++ e :: rest) =
                  plain_rest filter (ts a) false rest).
  { simpl. rewrite Hms, Hin, Hs. simpl. rewrite Hr. simpl. now rewrite Hme, He. }
  destruct (perform_at_head w filter action a (s :: mid ++ e :: rest) Hd Hma)
    as (w' & E & Hf & Ht & _ & Hc).
  { cbv zeta. rewrite Ha.
    pose proof (callbacks_valid_batch filter _ Hcb) as Hv.
    rewrite Hd in Hv. simpl in Hv. rewrite Hma, Ha in Hv. exact Hv. }
  rewrite Ha in Hf, Ht, Hc. rewrite Hbatch in Ht, Hc. rewrite Hrest in Hf.
  exists w'. repeat split; try assumption.
  - rewrite Ht. simpl. rewrite rev_app_distr. simpl.
    now rewrite <- !app_assoc.
  - rewrite Hc. rewrite (replayed_cons_plain _ _ _ Ha), (replayed_cons_group _ _ _ Hs).
    rewrite replayed_app, (replayed_cons_group _ _ _ He). reflexivity.
Qed.

(** X17: inside such a group the run still stops at the first entry
    whose kind does not match the mask: the opening sentinel and the
    entries before that one are moved, the rest of the group stays on
    the source list with its closing sentinel. *)
Theorem run_splits_group (w : world) (filter : N) (action : dt_undo_action_t)
    (a s x : dt_undo_item_t) (mid rest : list dt_undo_item_t) :
  deref (from_ref action) w = a :: s :: mid ++ x :: rest ->
  is_group a = false ->
  matches a filter = true ->
  is_group s = true ->
  matches s filter = true ->
  in_time_period (ts s) (ts a) = true ->
  forallb (fun y => plain y && matches y filter) mid = true ->
  matches x filter = false ->
  callbacks_valid (deref (from_ref action) w) = true ->
  exists w',
    _undo_do_undo_redo callback_body w filter action = Ok w' /\
    deref (from_ref action) w' = x :: rest /\
    deref (to_ref action) w' = rev mid ++ s :: a :: deref (to_ref action) w /\
    undo_calls (trace w') =
      undo_calls (trace w) ++ undo_call_of action a :: replayed action mid.
Proof.
  intros Hd Ha Hma Hs Hms Hin Hmid Hx Hcb.
  destruct (plain_batch_inside filter (ts a) mid (x :: rest) Hmid) as [Hb Hr].
  assert (Hbatch : plain_batch filter (ts a) false (s :: mid ++ x :: rest) = s :: mid).
  { simpl. rewrite Hms, Hin, Hs. simpl. rewrite Hb. simpl. rewrite Hx. simpl.
    now rewrite app_nil_r. }
  assert (Hrest : plain_rest filter (ts a) false (s :: mid ++ x :: rest) = x :: rest).
  { simpl. rewrite Hms, Hin, Hs. simpl. rewrite Hr. simpl. now rewrite Hx. }
  destruct (perform_at_head w filter action a (s :: mid ++ x :: rest) Hd Hma)
    as (w' & E & Hf & Ht & _ & Hc).
  { cbv zeta. rewrite Ha.
    pose proof (callbacks_valid_batch filter _ Hcb) as Hv.
    rewrite Hd in Hv. simpl in Hv. rewrite Hma, Ha in Hv. exact Hv. }
  rewrite Ha in Hf, Ht, Hc. rewrite Hbatch in Ht, Hc. rewrite Hrest in Hf.
  exists w'. repeat split; try assumption.
  - rewrite Ht. simpl. now rewrite <- !app_assoc.
  - rewrite Hc. now rewrite (replayed_cons_plain _ _ _ Ha), (replayed_cons_group _ _ _ Hs).
Qed.

(** ** What holds in every state a client can reach *)

Lemma _undo_record_group (w : world) (user_data : gpointer) (type : dt_undo_type_t)
    (data : dt_undo_data_t) (is_group : bool) (undo free_data p : gpointer) (now : float) :
  group (self (_undo_record w user_data type data is_group undo free_data p now)) =
    group (self w) /\
  group_indent (self (_undo_record w user_data type data is_group undo free_data p now)) =
    group_indent (self w) /\
  (locked (self w) = false ->
   locked (self (_undo_record w user_data type data is_group undo free_data p now)) = false).
Proof.
  destruct (disable_next (self w)) eqn:HD.
  - rewrite _undo_record_suppressed by assumption.
    destruct (free_data =? NULL); now repeat split.
  - destruct (locked (self w)) eqn:HL.
    + rewrite _undo_record_dropped by assumption. repeat split. discriminate.
    + rewrite _undo_record_stored by assumption. now repeat split.
Qed.

Lemma perform_returns (w w' : world) (filter : N) (action : dt_undo_action_t) :
  _undo_do_undo_redo callback_body w filter action = Ok w' ->
  locked (self w') = false /\
  group (self w') = group (self w) /\
  group_indent (self w') = group_indent (self w).
Proof.
  unfold _undo_do_undo_redo. intros E.
  destruct (scan_loop callback_body _ _ action filter _ _) as [w2|f] eqn:E2;
    simpl in E; [|discriminate].
  injection E as <-.
  destruct (scan_loop_replay_frame _ _ _ _ _ (LOCK w) w2 eq_refl E2) as (_ & G & I & _).
  now repeat split.
Qed.

(** The lock is free and the nesting depth is consistent with the open
    group. *)
Lemma api_step_keeps_state_sane (w w' : world) (c : api_call) :
  api_step DT_UNDO_NONE callback_body w c = Ok w' ->
  locked (self w) = false /\
  (0 <= group_indent (self w))%Z /\
  (group (self w) <> DT_UNDO_NONE -> (1 <= group_indent (self w))%Z) ->
  locked (self w') = false /\
  (0 <= group_indent (self w'))%Z /\
  (group (self w') <> DT_UNDO_NONE -> (1 <= group_indent (self w'))%Z).
Proof.
  intros E (HL & H0 & HG).
  destruct c as [|c|K p now|p now|filter|filter|filter]; simpl in E.
  - injection E as <-. now repeat split.
  - injection E as <-. unfold record_with, dt_undo_record.
    destruct (_undo_record_group w (rc_user_data c) (rc_type c) (rc_data c) false
                (rc_undo c) (rc_free_data c) (rc_malloc c) (rc_now c)) as (G & I & L).
    rewrite G, I, (L HL). now repeat split.
  - injection E as <-. unfold dt_undo_start_group.
    destruct (N.eqb_spec (group (self w)) DT_UNDO_NONE) as [En|En].
    + match goal with |- context [_undo_record ?w0 ?a ?b ?c ?d ?e ?f ?g ?h] =>
        destruct (_undo_record_group w0 a b c d e f g h) as (G & I & L) end.
      rewrite G, I, (L HL). simpl. repeat split; lia.
    + simpl. repeat split; try assumption; lia.
  - unfold dt_undo_end_group in E.
    destruct (Z.ltb_spec 0 (group_indent (self w))) as [Hpos|]; [|discriminate].
    simpl in E.
    destruct (Z.eqb_spec (group_indent (self w) - 1) 0) as [Z1|Z1]; injection E as <-.
    + match goal with |- context [_undo_record ?w0 ?a ?b ?c ?d ?e ?f ?g ?h] =>
        destruct (_undo_record_group w0 a b c d e f g h) as (G & I & L) end.
      simpl. rewrite I, (L HL). simpl. repeat split; lia.
    + simpl. repeat split; try assumption; lia.
  - destruct (perform_returns _ _ _ _ E) as (L & G & I). rewrite L, G, I. now repeat split.
  - destruct (perform_returns _ _ _ _ E) as (L & G & I). rewrite L, G, I. now repeat split.
  - injection E as <-. rewrite dt_undo_clear_self. simpl. now repeat split.
Qed.

Lemma api_run_keeps_state_sane (calls : list api_call) (w w' : world) :
  api_run DT_UNDO_NONE callback_body calls w = Ok w' ->
  locked (self w) = false /\
  (0 <= group_indent (self w))%Z /\
  (group (self w) <> DT_UNDO_NONE -> (1 <= group_indent (self w))%Z) ->
  locked (self w') = false /\
  (0 <= group_indent (self w'))%Z /\
  (group (self w') <> DT_UNDO_NONE -> (1 <= group_indent (self w'))%Z).
Proof.
  revert w. induction calls as [|c calls IH]; intros w E H; simpl in E.
  - now injection E as <-.
  - destruct (api_step DT_UNDO_NONE callback_body w c) as [w1|f] eqn:E1;
      simpl in E; [|discriminate].
    apply (IH w1 E). now apply (api_step_keeps_state_sane w w1 c).
Qed.

Lemma reachable_state_sane (w : world) :
  reachable DT_UNDO_NONE callback_body w ->
  locked (self w) = false /\
  (0 <= group_indent (self w))%Z /\
  (group (self w) <> DT_UNDO_NONE -> (1 <= group_indent (self w))%Z).
Proof.
  intros [calls E]. apply (api_run_keeps_state_sane calls _ w E).
  simpl. repeat split; lia.
Qed.

(** X12: every call returns with the lock released, so between calls a
    record is never dropped by the replay guard: in a reachable state it
    is stored unless the one-shot flag suppresses it. *)
Theorem reachable_unlocked (w : world) (c : record_call) :
  reachable DT_UNDO_NONE callback_body w ->
  locked (self w) = false /\
  (disable_next (self w) = false ->
   undo_list (self (record_with w c)) = item_of c :: undo_list (self w) /\
   redo_list (self (record_with w c)) = []).
Proof.
  intros R. destruct (reachable_state_sane w R) as (HL & _).
  split; [assumption|]. intros HD.
  now rewrite record_with_stored by assumption.
Qed.

Lemma api_step_keeps_depth_in_range (max_indent : Z) (w w' : world) (c : api_call) :
  (1 <= max_indent)%Z ->
  call_in_range DT_UNDO_NONE max_indent w c = true ->
  api_step DT_UNDO_NONE callback_body w c = Ok w' ->
  (group_indent (self w) <= max_indent)%Z ->
  (group_indent (self w') <= max_indent)%Z.
Proof.
  intros Hmax Hr E Hle.
  destruct c as [|c|K p now|p now|filter|filter|filter]; simpl in E, Hr.
  - now injection E as <-.
  - injection E as <-. unfold record_with, dt_undo_record.
    destruct (_undo_record_group w (rc_user_data c) (rc_type c) (rc_data c) false
                (rc_undo c) (rc_free_data c) (rc_malloc c) (rc_now c)) as (_ & I & _).
    now rewrite I.
  - injection E as <-. unfold dt_undo_start_group.
    destruct (N.eqb_spec (group (self w)) DT_UNDO_NONE) as [En|En].
    + match goal with |- context [_undo_record ?w0 ?a ?b ?c ?d ?e ?f ?g ?h] =>
        destruct (_undo_record_group w0 a b c d e f g h) as (_ & I & _) end.
      rewrite I. simpl. exact Hmax.
    + simpl in Hr. apply Z.ltb_lt in Hr. simpl. lia.
  - unfold dt_undo_end_group in E.
    destruct (Z.ltb_spec 0 (group_indent (self w))) as [Hpos|]; [|discriminate].
    simpl in E.
    destruct (Z.eqb_spec (group_indent (self w) - 1) 0) as [Z1|Z1]; injection E as <-.
    + match goal with |- context [_undo_record ?w0 ?a ?b ?c ?d ?e ?f ?g ?h] =>
        destruct (_undo_record_group w0 a b c d e f g h) as (_ & I & _) end.
      simpl. rewrite I. simpl. lia.
    + simpl. lia.
  - destruct (perform_returns _ _ _ _ E) as (_ & _ & I). now rewrite I.
  - destruct (perform_returns _ _ _ _ E) as (_ & _ & I). now rewrite I.
  - injection E as <-. now rewrite dt_undo_clear_self.
Qed.

Lemma api_run_keeps_depth_in_range (max_indent : Z) (calls : list api_call)
    (w w' : world) :
  (1 <= max_indent)%Z ->
  session_in_range DT_UNDO_NONE callback_body max_indent calls w = true ->
  api_run DT_UNDO_NONE callback_body calls w = Ok w' ->
  (group_indent (self w) <= max_indent)%Z ->
  (group_indent (self w') <= max_indent)%Z.
Proof.
  intros Hmax. revert w. induction calls as [|c calls IH]; intros w Hr E Hle; simpl in *.
  - now injection E as <-.
  - apply andb_prop in Hr. destruct Hr as [Hc Hr].
    destruct (api_step DT_UNDO_NONE callback_body w c) as [w1|f] eqn:E1;
      simpl in E; [|discriminate].
    apply (IH w1 Hr E).
    now apply (api_step_keeps_depth_in_range max_indent w w1 c).
Qed.

(** X14: take a session on a fresh engine that never nests a group when
    the depth counter already holds [max_indent], the largest value of
    its C type, so that group_indent++ never overflows.  In every state
    such a session returns in, the depth lies between 0 and [max_indent]
    and is at least one while a group is open; end_group succeeds
    whenever a group is open; and an end_group that directly follows a
    begin_group succeeds as long as that begin_group is itself within
    range. *)
Theorem nesting_depth_in_range (max_indent : Z) (calls : list api_call) (w : world)
    (K : dt_undo_type_t) (p p' : gpointer) (t t' : float) :
  (1 <= max_indent)%Z ->
  session_in_range DT_UNDO_NONE callback_body max_indent calls
    (dt_undo_init DT_UNDO_NONE) = true ->
  api_run DT_UNDO_NONE callback_body calls (dt_undo_init DT_UNDO_NONE) = Ok w ->
  (0 <= group_indent (self w) <= max_indent)%Z /\
  (group (self w) <> DT_UNDO_NONE ->
   (1 <= group_indent (self w))%Z /\
   exists w', dt_undo_end_group DT_UNDO_NONE w p t = Ok w') /\
  (call_in_range DT_UNDO_NONE max_indent w (api_start_group K p t) = true ->
   (group_indent (self (dt_undo_start_group DT_UNDO_NONE w K p t)) <= max_indent)%Z /\
   exists w',
     dt_undo_end_group DT_UNDO_NONE (dt_undo_start_group DT_UNDO_NONE w K p t) p' t'
     = Ok w').
Proof.
  intros Hmax Hr E.
  destruct (reachable_state_sane w (ex_intro _ calls E)) as (_ & H0 & HG).
  assert (Hle : (group_indent (self w) <= max_indent)%Z).
  { apply (api_run_keeps_depth_in_range max_indent calls _ w Hmax Hr E). simpl. lia. }
  split; [lia|]. split.
  - intros Hn. specialize (HG Hn). split; [assumption|]. unfold dt_undo_end_group.
    destruct (Z.ltb_spec 0 (group_indent (self w))); [|lia].
    destruct (_ =? 0)%Z; eexists; reflexivity.
  - intros Hc. split.
    + apply (api_step_keeps_depth_in_range max_indent w _ (api_start_group K p t)
               Hmax Hc eq_refl Hle).
    + assert (Hpos : (0 < group_indent
                            (self (dt_undo_start_group DT_UNDO_NONE w K p t)))%Z).
      { unfold dt_undo_start_group.
        destruct (N.eqb_spec (group (self w)) DT_UNDO_NONE) as [En|En].
        - match goal with |- context [_undo_record ?w0 ?a ?b ?c ?d ?e ?f ?g ?h] =>
            destruct (_undo_record_group w0 a b c d e f g h) as (_ & I & _) end.
          rewrite I. simpl. lia.
        - simpl. lia. }
      unfold dt_undo_end_group.
      destruct (Z.ltb_spec 0
                  (group_indent (self (dt_undo_start_group DT_UNDO_NONE w K p t))));
        [|lia].
      destruct (_ =? 0)%Z; eexists; reflexivity.
Qed.

(** X11: DT_UNDO_NONE is no kind for a group.  begin_group with it leaves
    the engine looking as if no group were open, so a second begin_group
    stores a second sentinel instead of nesting, the first end_group
    closes everything, and the second end_group fails the assertion. *)
Theorem group_of_kind_none (w : world) (p0 p1 p2 p3 : gpointer) (t0 t1 t2 t3 : float) :
  group (self w) = DT_UNDO_NONE ->
  disable_next (self w) = false ->
  locked (self w) = false ->
  (exists w3,
     api_run DT_UNDO_NONE callback_body
       [api_start_group DT_UNDO_NONE p0 t0; api_start_group DT_UNDO_NONE p1 t1;
        api_end_group p2 t2] w = Ok w3 /\
     undo_list (self w3) =
       sentinel p2 DT_UNDO_NONE t2 :: sentinel p1 DT_UNDO_NONE t1
       :: sentinel p0 DT_UNDO_NONE t0 :: undo_list (self w) /\
     group_indent (self w3) = 0%Z) /\
  api_run DT_UNDO_NONE callback_body
    [api_start_group DT_UNDO_NONE p0 t0; api_start_group DT_UNDO_NONE p1 t1;
     api_end_group p2 t2; api_end_group p3 t3] w = Fault assertion_failed.
Proof.
  intros HG HD HL.
  cbn [api_run api_step bind].
  rewrite (dt_undo_start_group_opens w) by assumption.
  rewrite dt_undo_start_group_opens by reflexivity.
  cbn [self trace undo_list redo_list disable_next locked group group_indent].
  rewrite dt_undo_end_group_closes by reflexivity.
  cbn [bind self trace undo_list redo_list disable_next locked group group_indent].
  split.
  - eexists. split; [reflexivity|]. now split.
  - reflexivity.
Qed.

(** ** Sessions of a well-behaved client *)

Lemma fresh_not_in (p : gpointer) (w : world) :
  fresh p w = true -> ~ In p (addresses w).
Proof.
  unfold fresh. intros H Hin. apply negb_true_iff in H.
  assert (existsb (N.eqb p) (addresses w) = true).
  { apply existsb_exists. exists p. split; [assumption|apply N.eqb_refl]. }
  congruence.
Qed.

Lemma _undo_record_keeps_lists_sound (w : world) (user_data : gpointer)
    (type : dt_undo_type_t) (data : dt_undo_data_t) (is_group : bool)
    (undo free_data p : gpointer) (now : float) :
  lists_sound w ->
  fresh p w = true ->
  is_group || negb (undo =? NULL) = true ->
  lists_sound (_undo_record w user_data type data is_group undo free_data p now).
Proof.
  intros [Hnd Hcb] Hp Hv. apply fresh_not_in in Hp.
  destruct (disable_next (self w)) eqn:HD.
  - rewrite _undo_record_suppressed by assumption.
    destruct (free_data =? NULL); now split.
  - destruct (locked (self w)) eqn:HL.
    + rewrite _undo_record_dropped by assumption. now split.
    + rewrite _undo_record_stored by assumption.
      unfold lists_sound, addresses in *. simpl. rewrite app_nil_r.
      rewrite map_app in Hnd, Hp. rewrite callbacks_valid_app in Hcb.
      apply andb_prop in Hcb. destruct Hcb as [Hcb _]. split.
      * constructor.
        -- intros Hin. apply Hp. apply in_or_app. now left.
        -- now apply NoDup_app_remove_r in Hnd.
      * unfold callbacks_valid in *. simpl. now rewrite Hv, Hcb.
Qed.

Lemma lists_sound_from_to (action : dt_undo_action_t) (w : world) :
  lists_sound w <->
  NoDup (map addr (deref (from_ref action) w ++ deref (to_ref action) w)) /\
  callbacks_valid (deref (from_ref action) w ++ deref (to_ref action) w) = true.
Proof.
  unfold lists_sound, addresses. destruct action; simpl; [reflexivity|].
  rewrite !map_app, !callbacks_valid_app, (andb_comm (callbacks_valid (redo_list (self w)))).
  split; intros [Hnd Hcb]; (split; [|assumption]).
  - apply (Permutation_NoDup (Permutation_app_comm _ _) Hnd).
  - apply (Permutation_NoDup (Permutation_app_comm _ _) Hnd).
Qed.

Lemma api_step_keeps_lists_sound (w : world) (c : api_call) :
  lists_sound w ->
  call_sound w c = true ->
  api_step DT_UNDO_NONE callback_body w c <> Fault null_call /\
  (forall w', api_step DT_UNDO_NONE callback_body w c = Ok w' -> lists_sound w').
Proof.
  intros HS Hc.
  assert (Hperform : forall filter action,
            exists w'', _undo_do_undo_redo callback_body w filter action = Ok w'' /\
                        lists_sound w'').
  { intros filter action.
    destruct (proj1 (lists_sound_from_to action w) HS) as [Hnd Hcb].
    destruct (perform_keeps_lists_sound w filter action Hnd Hcb) as (w'' & E & Hnd' & Hcb').
    exists w''. split; [assumption|].
    apply (lists_sound_from_to action). now split. }
  destruct c as [|c|K p now|p now|filter|filter|filter]; simpl in *.
  - split; [discriminate|]. intros w' E. injection E as <-. exact HS.
  - split; [discriminate|]. intros w' E. injection E as <-.
    apply andb_prop in Hc. destruct Hc as [Hu Hp].
    unfold record_with, dt_undo_record.
    apply _undo_record_keeps_lists_sound; try assumption.
  - split; [discriminate|]. intros w' E. injection E as <-.
    unfold dt_undo_start_group. destruct (group (self w) =? DT_UNDO_NONE).
    + now apply _undo_record_keeps_lists_sound.
    + exact HS.
  - unfold dt_undo_end_group.
    destruct (0 <? group_indent (self w))%Z; [|split; [discriminate|discriminate]].
    simpl. destruct (_ =? 0)%Z.
    + split; [discriminate|]. intros w' E. injection E as <-.
      match goal with |- lists_sound (on_self _ ?w0) =>
        assert (H : lists_sound w0) by now apply _undo_record_keeps_lists_sound end.
      exact H.
    + split; [discriminate|]. intros w' E. injection E as <-. exact HS.
  - destruct (Hperform filter DT_ACTION_UNDO) as (w'' & E & H).
    unfold dt_undo_do_undo. rewrite E. split; [discriminate|].
    intros w' E'. now injection E' as <-.
  - destruct (Hperform filter DT_ACTION_REDO) as (w'' & E & H).
    unfold dt_undo_do_redo. rewrite E. split; [discriminate|].
    intros w' E'. now injection E' as <-.
  - split; [discriminate|]. intros w' E. injection E as <-.
    unfold lists_sound, addresses. rewrite dt_undo_clear_self. simpl.
    split; [constructor|reflexivity].
Qed.

(** X13: a client that records with an undo callback, on an allocator
    that never hands out the address of a stored item, cannot make the
    engine call through a NULL pointer, whatever it calls and in whatever
    order: a session either fails the end_group assertion or returns,
    with the stored items still at pairwise distinct addresses and every
    plain one still carrying its callback. *)
Theorem sound_session_stays_sound (calls : list api_call) (w : world) :
  lists_sound w ->
  session_sound DT_UNDO_NONE callback_body calls w = true ->
  api_run DT_UNDO_NONE callback_body calls w <> Fault null_call /\
  (forall w', api_run DT_UNDO_NONE callback_body calls w = Ok w' -> lists_sound w').
Proof.
  revert w. induction calls as [|c calls IH]; intros w HS Hss; simpl in *.
  - split; [discriminate|]. intros w' E. now injection E as <-.
  - apply andb_prop in Hss. destruct Hss as [Hc Hss].
    destruct (api_step_keeps_lists_sound w c HS Hc) as [Hnf Hok].
    destruct (api_step DT_UNDO_NONE callback_body w c) as [w1|f]; simpl.
    + apply IH; [now apply Hok|assumption].
    + split; [|discriminate]. intros E. now rewrite E in Hnf.
Qed.

End Proofs.

(** ** The statements on the sample sessions *)

(** C2, as stated, fails: in a kind-1 group around a kind-2 entry, an
    undo with mask 1 calls the callback of the kind-2 entry and moves it
    to the redo list, although its kind does not match the mask. *)
Lemma filter_selectivity_counterexample :
  reachable 0 recording_callback mixed_group /\
  matches (sample_item 101 2 1.25%float) 1 = false /\
  In (sample_item 101 2 1.25%float) (undo_list (self mixed_group)) /\
  exists w',
    dt_undo_do_undo recording_callback mixed_group 1 = Ok w' /\
    undo_list (self w') = [] /\
    redo_list (self w') =
      [sentinel 100 1 1%float; sample_item 101 2 1.25%float; sentinel 102 1 1.5%float] /\
    undo_calls (trace w') =
      [undo_call_of DT_ACTION_UNDO (sample_item 101 2 1.25%float)].
Proof.
  split; [exists mixed_group_calls; reflexivity|].
  split; [reflexivity|].
  split; [simpl; auto|].
  eexists. split; [reflexivity|]. repeat split.
Qed.

Lemma perform_filter_selectivity_witness :
  NoDup (map addr (deref (from_ref DT_ACTION_UNDO) mixed_group)) /\
  callbacks_valid (deref (from_ref DT_ACTION_UNDO) mixed_group) = true /\
  exists w' skipped batch rest,
    _undo_do_undo_redo recording_callback mixed_group 1 DT_ACTION_UNDO = Ok w' /\
    deref (from_ref DT_ACTION_UNDO) mixed_group = skipped ++ batch ++ rest /\
    deref (from_ref DT_ACTION_UNDO) w' = skipped ++ rest /\
    deref (to_ref DT_ACTION_UNDO) w' = rev batch ++ deref (to_ref DT_ACTION_UNDO) mixed_group /\
    undo_calls (trace w') =
      undo_calls (trace mixed_group) ++ replayed DT_ACTION_UNDO batch /\
    forallb (fun x => negb (matches x 1)) skipped = true /\
    (batch = [] <->
     forallb (fun x => negb (matches x 1)) (deref (from_ref DT_ACTION_UNDO) mixed_group)
       = true) /\
    (forall x b, batch = x :: b ->
       matches x 1 = true /\
       (is_group x = false -> forallb (fun y => matches y 1) batch = true) /\
       (is_group x = true ->
        exists mid,
          forallb plain mid = true /\
          ((exists s, is_group s = true /\ b = mid ++ [s]) \/
           (b = mid /\ rest = [])))).
Proof.
  assert (H : NoDup (map addr (deref (from_ref DT_ACTION_UNDO) mixed_group))).
  { simpl. repeat constructor; simpl; intuition discriminate. }
  split; [exact H|]. split; [reflexivity|].
  exact (perform_filter_selectivity recording_callback mixed_group 1 DT_ACTION_UNDO
           H eq_refl).
Defined.

Lemma group_atomicity_witness :
  group (self (dt_undo_init 0)) = 0 /\
  disable_next (self (dt_undo_init 0)) = false /\
  locked (self (dt_undo_init 0)) = false /\
  1 <> 0 /\
  rc_undo (sample_call 101 1 1.25%float) <> NULL /\
  exists w5 w6 w7,
    api_run 0 recording_callback
      [api_start_group 1 100 1%float; api_record (sample_call 101 1 1.25%float);
       api_record (sample_call 102 1 1.5%float); api_record (sample_call 103 1 9%float);
       api_end_group 104 9.5%float] (dt_undo_init 0) = Ok w5 /\
    dt_undo_do_undo recording_callback w5 1 = Ok w6 /\
    undo_list (self w6) = [] /\
    redo_list (self w6) =
      [sentinel 100 1 1%float; sample_item 101 1 1.25%float; sample_item 102 1 1.5%float;
       sample_item 103 1 9%float; sentinel 104 1 9.5%float] /\
    undo_calls (trace w6) =
      undo_calls (trace w5)
      ++ [undo_call_of DT_ACTION_UNDO (sample_item 103 1 9%float);
          undo_call_of DT_ACTION_UNDO (sample_item 102 1 1.5%float);
          undo_call_of DT_ACTION_UNDO (sample_item 101 1 1.25%float)] /\
    dt_undo_do_redo recording_callback w6 1 = Ok w7 /\
    undo_list (self w7) = undo_list (self w5) /\
    redo_list (self w7) = [] /\
    undo_calls (trace w7) =
      undo_calls (trace w6)
      ++ [undo_call_of DT_ACTION_REDO (sample_item 101 1 1.25%float);
          undo_call_of DT_ACTION_REDO (sample_item 102 1 1.5%float);
          undo_call_of DT_ACTION_REDO (sample_item 103 1 9%float)].
Proof.
  assert (H1 : (1 <> 0)%N) by discriminate.
  assert (Hf : forall p now, rc_undo (sample_call p 1 now) <> NULL) by discriminate.
  repeat (split; [first [reflexivity | assumption | apply Hf]|]).
  destruct (group_atomicity 0 recording_callback (dt_undo_init 0) 1
              (sample_call 101 1 1.25%float) (sample_call 102 1 1.5%float)
              (sample_call 103 1 9%float) 100 104 1%float 9.5%float
              eq_refl eq_refl eq_refl H1 eq_refl eq_refl eq_refl
              (Hf _ _) (Hf _ _) (Hf _ _))
    as (w5 & w6 & w7 & E5 & _ & _ & E6 & U6 & R6 & C6 & E7 & U7 & R7 & C7).
  exists w5, w6, w7. repeat split; assumption.
Defined.

Lemma coalescing_window_witness :
  in_time_period 10.25%float 10.5%float = true /\
  in_time_period 10%float 10.25%float = true /\
  in_time_period 10%float 10.5%float = false /\
  in_time_period 10%float 11%float = false /\
  (exists w',
     _undo_do_undo_redo recording_callback three_quarters 1 DT_ACTION_UNDO = Ok w' /\
     undo_list (self w') = [sample_item 100 1 10%float] /\
     redo_list (self w') = [sample_item 101 1 10.25%float; sample_item 102 1 10.5%float] /\
     undo_calls (trace w') =
       [undo_call_of DT_ACTION_UNDO (sample_item 102 1 10.5%float);
        undo_call_of DT_ACTION_UNDO (sample_item 101 1 10.25%float)]) /\
  (exists w' w'',
     _undo_do_undo_redo recording_callback one_second 1 DT_ACTION_UNDO = Ok w' /\
     undo_list (self w') = [sample_item 100 1 10%float] /\
     redo_list (self w') = [sample_item 101 1 11%float] /\
     undo_calls (trace w') = [undo_call_of DT_ACTION_UNDO (sample_item 101 1 11%float)] /\
     _undo_do_undo_redo recording_callback w' 1 DT_ACTION_UNDO = Ok w'' /\
     redo_list (self w'') = [sample_item 100 1 10%float; sample_item 101 1 11%float]).
Proof.
  repeat (split; [reflexivity|]). split.
  - destruct (coalescing_window recording_callback three_quarters 1 DT_ACTION_UNDO
                (sample_item 102 1 10.5%float) (sample_item 101 1 10.25%float)
                [sample_item 100 1 10%float]
                eq_refl eq_refl eq_refl eq_refl eq_refl eq_refl)
      as (_ & _ & Third & _).
    destruct (Third (sample_item 100 1 10%float) [] eq_refl eq_refl eq_refl)
      as (w' & E & Hf & Ht & Hc).
    exists w'. repeat split; assumption.
  - destruct (coalescing_window recording_callback one_second 1 DT_ACTION_UNDO
                (sample_item 101 1 11%float) (sample_item 100 1 10%float) []
                eq_refl eq_refl eq_refl eq_refl eq_refl eq_refl)
      as (_ & Out & _).
    destruct (Out eq_refl) as (w' & w'' & E & Hf & Ht & Hc & E' & Ht' & _).
    exists w', w''. repeat split; assumption.
Defined.

Lemma record_invalidates_redo_witness :
  disable_next (self with_redo) = false /\
  locked (self with_redo) = false /\
  trace (_undo_record with_redo 11 1 12 false 50 60 200 4%float) =
    [call_free_data 60 103; call_free 101; call_free 102] /\
  exists w2,
    dt_undo_do_redo recording_callback
      (_undo_record with_redo 11 1 12 false 50 60 200 4%float) 5 = Ok w2 /\
    undo_list (self w2) =
      [mk_item 200 11 1 12 4%float false 50 60; sample_item 100 1 1%float] /\
    redo_list (self w2) = [] /\
    undo_calls (trace w2) = [].
Proof.
  split; [reflexivity|]. split; [reflexivity|].
  destruct (record_invalidates_redo recording_callback with_redo 11 1 12 false 50 60 200
              4%float 5 eq_refl eq_refl)
    as (U1 & _ & T1 & _ & w2 & E & U2 & R2 & C2).
  split; [exact T1|].
  exists w2. split; [exact E|]. split; [|split; [exact R2|]].
  - rewrite U2. exact U1.
  - rewrite C2, T1. reflexivity.
Defined.

Lemma undo_redo_round_trip_witness :
  undo_list (self single_entry) = [sample_item 100 1 1%float] /\
  redo_list (self single_entry) = [] /\
  exists w1 w2,
    dt_undo_do_undo recording_callback single_entry 1 = Ok w1 /\
    undo_list (self w1) = [] /\
    redo_list (self w1) = [sample_item 100 1 1%float] /\
    dt_undo_do_redo recording_callback w1 1 = Ok w2 /\
    undo_list (self w2) = [sample_item 100 1 1%float] /\
    redo_list (self w2) = [] /\
    undo_calls (trace w2) =
      [undo_call_of DT_ACTION_UNDO (sample_item 100 1 1%float);
       undo_call_of DT_ACTION_REDO (sample_item 100 1 1%float)].
Proof.
  split; [reflexivity|]. split; [reflexivity|].
  assert (H1 : (1 <> 0)%N) by discriminate.
  assert (H2 : undo (sample_item 100 1 1%float) <> NULL) by discriminate.
  destruct (undo_redo_round_trip recording_callback single_entry
              (sample_item 100 1 1%float) 1 eq_refl eq_refl eq_refl eq_refl H1 H2)
    as (w1 & w2 & E1 & U1 & R1 & _ & E2 & U2 & R2 & C2).
  exists w1, w2. repeat split; assumption.
Defined.

(** C7, as stated, fails: disable_next; begin_group(1); record;
    end_group() leaves a closed group state and an undo list whose only
    sentinel has no partner. *)
Lemma nested_groups_counterexample :
  api_run 0 recording_callback suppressed_start_calls (dt_undo_init 0) = Ok lone_sentinel /\
  reachable 0 recording_callback lone_sentinel /\
  group_indent (self lone_sentinel) = 0%Z /\
  List.filter is_group (undo_list (self lone_sentinel)) = [sentinel 102 1 1.5%float] /\
  well_grouped (undo_list (self lone_sentinel)) = false.
Proof.
  split; [reflexivity|]. split; [exists suppressed_start_calls; reflexivity|].
  repeat split.
Qed.

Lemma nested_groups_flatten_witness :
  exists w',
    api_run 0 recording_callback
      [api_start_group 1 100 1%float; api_start_group 1 0 0%float;
       api_record (sample_call 101 1 1.25%float);
       api_end_group 0 0%float; api_end_group 102 1.5%float] (dt_undo_init 0) = Ok w' /\
    undo_list (self w') =
      [sentinel 102 1 1.5%float; sample_item 101 1 1.25%float; sentinel 100 1 1%float] /\
    well_grouped (undo_list (self w')) = true.
Proof.
  assert (H1 : (1 <> 0)%N) by discriminate.
  destruct (proj1 (nested_groups_flatten 0 recording_callback) (dt_undo_init 0) 1
              (sample_call 101 1 1.25%float) 100 0 0 102 1%float 0%float 0%float 1.5%float
              H1 eq_refl eq_refl eq_refl)
    as (w' & E & U & _ & _).
  exists w'. split; [exact E|]. split; [exact U|]. rewrite U. reflexivity.
Defined.

Lemma record_dropped_while_replaying_witness :
  locked (self replaying) = true /\
  disable_next (self replaying) = false /\
  dt_undo_record replaying 11 1 12 50 60 200 4%float = replaying /\
  invoke_undo recording_callback (sample_item 100 1 1%float) DT_ACTION_UNDO replaying =
    Ok (emit (undo_call_of DT_ACTION_UNDO (sample_item 100 1 1%float)) replaying).
Proof.
  split; [reflexivity|]. split; [reflexivity|].
  destruct (record_dropped_while_replaying recording_callback replaying 11 1 12 50 60 200
              4%float eq_refl eq_refl) as [H1 H2].
  split; [exact H1|]. apply H2. discriminate.
Defined.

Lemma dt_undo_end_group_spec_witness :
  dt_undo_end_group 0 (dt_undo_init 0) 200 3%float = Fault assertion_failed /\
  exists w',
    dt_undo_end_group 0 open_group 200 3%float = Ok w' /\
    undo_list (self w') =
      [sentinel 200 4 3%float; sample_item 101 4 2%float; sentinel 100 4 1%float] /\
    group (self w') = 0 /\
    group_indent (self w') = 0%Z.
Proof.
  split.
  - apply (proj1 (dt_undo_end_group_spec 0 (dt_undo_init 0) 200 3%float)). reflexivity.
  - destruct (dt_undo_end_group_spec 0 open_group 200 3%float) as (_ & _ & H).
    exact (H eq_refl eq_refl eq_refl).
Defined.

(** ** Further statements on the sample sessions *)

Lemma _undo_clear_list_keeps_the_rest_witness :
  NoDup (map addr (deref ref_undo_list mixed_kinds)) /\
  deref ref_undo_list (_undo_clear_list ref_undo_list 1 mixed_kinds) =
    [sample_item 300 2 3%float] /\
  trace (_undo_clear_list ref_undo_list 1 mixed_kinds) =
    [call_free_data 60 202; call_free 200; call_free_data 60 102; call_free 100].
Proof.
  assert (H : NoDup (map addr (deref ref_undo_list mixed_kinds))).
  { simpl. repeat constructor; simpl; intuition discriminate. }
  split; [exact H|].
  destruct (_undo_clear_list_keeps_the_rest ref_undo_list 1 mixed_kinds H) as (Hd & _ & Ht).
  split; [exact Hd|exact Ht].
Defined.

Lemma dt_undo_clear_leaks_the_rest_witness :
  NoDup (addresses mixed_kinds) /\
  In (sample_item 300 2 3%float)
     (undo_list (self mixed_kinds) ++ redo_list (self mixed_kinds)) /\
  matches (sample_item 300 2 3%float) 1 = false /\
  exists s,
    trace (dt_undo_clear mixed_kinds 1) = trace mixed_kinds ++ s /\
    ~ In (call_free 300) s /\
    ~ In (sample_item 300 2 3%float)
         (undo_list (self (dt_undo_clear mixed_kinds 1))
          ++ redo_list (self (dt_undo_clear mixed_kinds 1))).
Proof.
  assert (H : NoDup (addresses mixed_kinds)).
  { unfold addresses. simpl. repeat constructor; simpl; intuition discriminate. }
  assert (Hin : In (sample_item 300 2 3%float)
                   (undo_list (self mixed_kinds) ++ redo_list (self mixed_kinds))).
  { simpl. now left. }
  split; [exact H|]. split; [exact Hin|]. split; [reflexivity|].
  exact (dt_undo_clear_leaks_the_rest mixed_kinds 1 (sample_item 300 2 3%float)
           H Hin eq_refl).
Defined.

Lemma dt_undo_cleanup_releases_everything_witness :
  forallb (fun x => matches x 7) (undo_list (self with_redo) ++ redo_list (self with_redo))
    = true /\
  undo_list (self (dt_undo_cleanup 7 with_redo)) = [] /\
  redo_list (self (dt_undo_cleanup 7 with_redo)) = [] /\
  trace (dt_undo_cleanup 7 with_redo) =
    [call_free_data 60 102; call_free 100; call_free_data 60 103; call_free 101;
     call_free 102].
Proof.
  split; [reflexivity|].
  exact (dt_undo_cleanup_releases_everything 7 with_redo eq_refl).
Defined.

Lemma replay_keeps_what_iterate_visits_witness :
  NoDup (map addr (deref (from_ref DT_ACTION_UNDO) mixed_kinds)) /\
  callbacks_valid (deref (from_ref DT_ACTION_UNDO) mixed_kinds) = true /\
  exists w',
    _undo_do_undo_redo recording_callback mixed_kinds 1 DT_ACTION_UNDO = Ok w' /\
    Permutation (dt_undo_iterate_internal mixed_kinds 3 9 collect [])
                (dt_undo_iterate_internal w' 3 9 collect []).
Proof.
  assert (H : NoDup (map addr (deref (from_ref DT_ACTION_UNDO) mixed_kinds))).
  { simpl. repeat constructor; simpl; intuition discriminate. }
  split; [exact H|]. split; [reflexivity|].
  exact (replay_keeps_what_iterate_visits recording_callback mixed_kinds 1 DT_ACTION_UNDO
           3 9 H eq_refl).
Defined.

Lemma iterate_after_record_witness :
  disable_next (self with_redo) = false /\
  locked (self with_redo) = false /\
  dt_undo_iterate_internal (record_with with_redo (sample_call 200 1 4%float)) 1 9
    collect [] =
  [mk_visit 9 1 202; mk_visit 9 1 102].
Proof.
  split; [reflexivity|]. split; [reflexivity|].
  exact (iterate_after_record (list visit) with_redo (sample_call 200 1 4%float) 1 9
           collect [] eq_refl eq_refl).
Defined.

Lemma replay_events_witness :
  _undo_do_undo_redo recording_callback mixed_group 1 DT_ACTION_UNDO =
    Ok mixed_group_undone /\
  (exists s,
     trace mixed_group_undone = trace mixed_group ++ s ++ [call_collection_update_query] /\
     forallb replay_event s = true) /\
  locked (self mixed_group_undone) = false /\
  group (self mixed_group_undone) = group (self mixed_group) /\
  group_indent (self mixed_group_undone) = group_indent (self mixed_group).
Proof.
  split; [reflexivity|].
  exact (replay_events recording_callback mixed_group mixed_group_undone 1
           DT_ACTION_UNDO eq_refl).
Defined.

Lemma perform_without_match_witness :
  forallb (fun x => negb (matches x 4)) (deref (from_ref DT_ACTION_UNDO) mixed_kinds)
    = true /\
  _undo_do_undo_redo recording_callback mixed_kinds 4 DT_ACTION_UNDO =
    Ok (emit call_collection_update_query (UNLOCK mixed_kinds)) /\
  _undo_do_undo_redo recording_callback mixed_kinds 1 DT_ACTION_REDO =
    Ok (emit call_collection_update_query (UNLOCK mixed_kinds)).
Proof.
  split; [reflexivity|]. split.
  - exact (perform_without_match recording_callback mixed_kinds 4 DT_ACTION_UNDO eq_refl).
  - exact (perform_without_match recording_callback mixed_kinds 1 DT_ACTION_REDO eq_refl).
Defined.

Lemma perform_null_callback_witness :
  deref (from_ref DT_ACTION_UNDO) no_callback =
    [sample_item 101 2 2%float] ++ mk_item 100 7 1 8 1%float false NULL 60 :: [] /\
  _undo_do_undo_redo recording_callback no_callback 1 DT_ACTION_UNDO = Fault null_call.
Proof.
  split; [reflexivity|].
  exact (perform_null_callback recording_callback no_callback 1 DT_ACTION_UNDO
           [sample_item 101 2 2%float] (mk_item 100 7 1 8 1%float false NULL 60) []
           eq_refl eq_refl eq_refl eq_refl eq_refl).
Defined.

Lemma group_of_kind_none_witness :
  (exists w3,
     api_run 0 recording_callback
       [api_start_group 0 100 1%float; api_start_group 0 101 2%float;
        api_end_group 102 3%float] (dt_undo_init 0) = Ok w3 /\
     undo_list (self w3) =
       [sentinel 102 0 3%float; sentinel 101 0 2%float; sentinel 100 0 1%float] /\
     group_indent (self w3) = 0%Z) /\
  api_run 0 recording_callback
    [api_start_group 0 100 1%float; api_start_group 0 101 2%float;
     api_end_group 102 3%float; api_end_group 103 4%float] (dt_undo_init 0)
    = Fault assertion_failed.
Proof.
  exact (group_of_kind_none 0 recording_callback (dt_undo_init 0) 100 101 102 103
           1%float 2%float 3%float 4%float eq_refl eq_refl eq_refl).
Defined.

Lemma reachable_unlocked_witness :
  reachable 0 recording_callback lone_sentinel /\
  locked (self lone_sentinel) = false /\
  undo_list (self (record_with lone_sentinel (sample_call 200 1 4%float))) =
    sample_item 200 1 4%float :: undo_list (self lone_sentinel).
Proof.
  assert (R : reachable 0 recording_callback lone_sentinel).
  { exists suppressed_start_calls. reflexivity. }
  split; [exact R|].
  destruct (reachable_unlocked 0 recording_callback lone_sentinel
              (sample_call 200 1 4%float) R) as [HL H].
  split; [exact HL|]. exact (proj1 (H eq_refl)).
Defined.

Lemma nesting_depth_in_range_witness :
  (1 <= 2147483647)%Z /\
  session_in_range 0 recording_callback 2147483647 nested_open_calls (dt_undo_init 0)
    = true /\
  api_run 0 recording_callback nested_open_calls (dt_undo_init 0) = Ok nested_open /\
  (0 <= group_indent (self nested_open) <= 2147483647)%Z /\
  (exists w', dt_undo_end_group 0 nested_open 200 4%float = Ok w') /\
  exists w',
    dt_undo_end_group 0 (dt_undo_start_group 0 nested_open 4 200 4%float) 201 5%float
    = Ok w'.
Proof.
  assert (Hmax : (1 <= 2147483647)%Z) by lia.
  assert (Hn : group (self nested_open) <> 0) by discriminate.
  split; [exact Hmax|]. split; [reflexivity|]. split; [reflexivity|].
  destruct (nesting_depth_in_range 0 recording_callback 2147483647 nested_open_calls
              nested_open 4 200 201 4%float 5%float Hmax eq_refl eq_refl)
    as (H0 & Hopen & Hnext).
  split; [exact H0|]. split.
  - exact (proj2 (Hopen Hn)).
  - exact (proj2 (Hnext eq_refl)).
Defined.

Lemma sound_session_stays_sound_witness :
  lists_sound (dt_undo_init 0) /\
  session_sound 0 recording_callback busy_calls (dt_undo_init 0) = true /\
  api_run 0 recording_callback busy_calls (dt_undo_init 0) <> Fault null_call /\
  (forall w', api_run 0 recording_callback busy_calls (dt_undo_init 0) = Ok w' ->
              lists_sound w').
Proof.
  assert (H : lists_sound (dt_undo_init 0)).
  { split; [constructor|reflexivity]. }
  split; [exact H|]. split; [reflexivity|].
  exact (sound_session_stays_sound 0 recording_callback busy_calls (dt_undo_init 0)
           H eq_refl).
Defined.

Lemma unpaired_sentinel_takes_all_witness :
  deref (from_ref DT_ACTION_UNDO) lone_sentinel =
    [sentinel 102 1 1.5%float; sample_item 101 1 1.25%float] /\
  exists w',
    _undo_do_undo_redo recording_callback lone_sentinel 1 DT_ACTION_UNDO = Ok w' /\
    deref (from_ref DT_ACTION_UNDO) w' = [] /\
    deref (to_ref DT_ACTION_UNDO) w' =
      [sample_item 101 1 1.25%float; sentinel 102 1 1.5%float] /\
    undo_calls (trace w') = [undo_call_of DT_ACTION_UNDO (sample_item 101 1 1.25%float)].
Proof.
  split; [reflexivity|].
  exact (unpaired_sentinel_takes_all recording_callback lone_sentinel 1 DT_ACTION_UNDO
           (sentinel 102 1 1.5%float) [sample_item 101 1 1.25%float]
           eq_refl eq_refl eq_refl eq_refl eq_refl).
Defined.

Lemma group_round_trip_witness :
  undo_list (self mixed_group) =
    sentinel 102 1 1.5%float :: [sample_item 101 2 1.25%float] ++ sentinel 100 1 1%float
    :: [] /\
  exists w1 w2,
    dt_undo_do_undo recording_callback mixed_group 1 = Ok w1 /\
    undo_list (self w1) = [] /\
    dt_undo_do_redo recording_callback w1 1 = Ok w2 /\
    undo_list (self w2) = undo_list (self mixed_group) /\
    redo_list (self w2) = redo_list (self mixed_group).
Proof.
  split; [reflexivity|].
  destruct (group_round_trip recording_callback mixed_group 1
              (sentinel 102 1 1.5%float) (sentinel 100 1 1%float)
              [sample_item 101 2 1.25%float] []
              eq_refl eq_refl eq_refl eq_refl eq_refl eq_refl eq_refl)
    as (w1 & w2 & E1 & U1 & _ & _ & E2 & U2 & R2 & _).
  exists w1, w2. repeat split; assumption.
Defined.

Lemma run_takes_whole_group_witness :
  in_time_period 9.75%float 10%float = true /\
  in_time_period 5%float 10%float = false /\
  in_time_period 3%float 10%float = false /\
  exists w',
    _undo_do_undo_redo recording_callback plain_over_group 1 DT_ACTION_UNDO = Ok w' /\
    undo_list (self w') = [sample_item 101 1 3%float] /\
    redo_list (self w') =
      [sentinel 102 1 4%float; sample_item 103 1 5%float; sentinel 104 1 9.75%float;
       sample_item 105 1 10%float].
Proof.
  repeat (split; [reflexivity|]).
  destruct (run_takes_whole_group recording_callback plain_over_group 1 DT_ACTION_UNDO
              (sample_item 105 1 10%float) (sentinel 104 1 9.75%float)
              (sentinel 102 1 4%float) [sample_item 103 1 5%float]
              [sample_item 101 1 3%float]
              eq_refl eq_refl eq_refl eq_refl eq_refl eq_refl eq_refl eq_refl eq_refl
              eq_refl)
    as (w' & E & Hf & Ht & _).
  exists w'. split; [exact E|]. split; [exact Hf|exact Ht].
Defined.

Lemma run_splits_group_witness :
  matches (sample_item 106 2 9.25%float) 1 = false /\
  exists w',
    _undo_do_undo_redo recording_callback plain_over_mixed_group 1 DT_ACTION_UNDO = Ok w' /\
    undo_list (self w') = [sample_item 106 2 9.25%float; sentinel 102 1 9%float] /\
    redo_list (self w') =
      [sample_item 103 1 9.5%float; sentinel 104 1 9.75%float; sample_item 105 1 10%float].
Proof.
  split; [reflexivity|].
  destruct (run_splits_group recording_callback plain_over_mixed_group 1 DT_ACTION_UNDO
              (sample_item 105 1 10%float) (sentinel 104 1 9.75%float)
              (sample_item 106 2 9.25%float) [sample_item 103 1 9.5%float]
              [sentinel 102 1 9%float]
              eq_refl eq_refl eq_refl eq_refl eq_refl eq_refl eq_refl eq_refl eq_refl)
    as (w' & E & Hf & Ht & _).
  exists w'. split; [exact E|]. split; [exact Hf|exact Ht].
Defined.
